(** * Reply-chain reconstruction of [RedditUserScraper.get_user_comments_on_posts]

    A shallow embedding of the comment-chain reconstruction in
    [src/scraper.py] (lines 88-198): the first pass that indexes the user's
    comments on the target posts, the recursive membership test
    [is_in_user_chain] with its [visited] guard, the depth walk, the grouping
    by post and the final sort by creation time.

    Modelling choices.
    - Python strings are [string]; [s.startswith(p)] is [startswith s p] and
      the slice [s[3:]] is [slice_from 3 s].
    - [created_utc] is a timestamp of which the code uses only the order, and
      [score] is a number it only copies; both are integers ([Z]).
    - [depth] is a Python int, modelled as [Z].
    - A Python [dict] keeps insertion order, and the code iterates over
      [all_user_comments.items()] and over [comments_by_post]; both are
      insertion-ordered association lists ([dict_set] replaces the value of an
      existing key in place and appends a new key at the end).
    - [top_level_comment_ids] and [visited] are Python sets used for
      membership only: [gset string].
    - A [comment_data] dictionary is shared by the index and by the list it
      is appended to.  The second pass writes its [depth] and reads only its
      [parent_id] and [post_id], so the model appends a copy with the depth
      set ([set_depth]).
    - [list.sort(key=...)] is a stable sort; it is modelled by a stable
      insertion sort ([list_sort]).  A stable sort is determined by its
      input, so every stable sort computes the same list.
    - The recursion of [is_in_user_chain] is bounded by the interpreter's
      recursion limit.  The function takes the number of nested calls the
      interpreter still allows ([frames]; at the call of line 167 this is
      [recursion_limit], what [sys.getrecursionlimit()] leaves above the
      frames already on the stack) and returns [None] when a call exceeds
      it: Python raises [RecursionError], which the [except Exception] of
      lines 196-198 turns into the result [{}].
    - The [while] loop of the depth walk has no bound in the source.  It
      takes a [fuel] argument and returns [None] when it runs out; [None]
      stands for a loop that has not finished, and [None] as the result of
      the whole function for a run that has not returned.
    - [datetime.fromtimestamp(t).isoformat()] depends on the local time zone;
      it is a parameter, [fromtimestamp_isoformat].
    - The network layer behind [user.comments.new] is outside the model:
      the stream of comments is the input, and what the function prints is
      not part of its result. *)

From Stdlib Require Import ZArith Ascii String Sorted QArith_base.
From stdpp Require Import gmap strings list sorting pretty.

Open Scope string_scope.
Open Scope list_scope.
Open Scope nat_scope.
Set Warnings "-clear-no-such-hyp".

(** ** Python string operations *)

(** [s.startswith(p)] *)
Definition startswith (s p : string) : bool := String.prefix p s.

(** [s[n:]] *)
Fixpoint slice_from (n : nat) (s : string) : string :=
  match n, s with
  | O, _ => s
  | S _, EmptyString => EmptyString
  | S n', String _ s' => slice_from n' s'
  end.

Arguments startswith : simpl never.
Arguments slice_from : simpl never.

(** ** Records *)

(** The attributes of a praw comment that the code reads. *)
Record Comment := {
  c_id : string;
  c_body : string;
  c_score : Z;
  c_created_utc : Z;
  c_permalink : string;
  c_parent_id : string;
  c_is_submitter : bool;
  c_submission_id : string
}.

(** The [comment_data] dictionary built at lines 114-125. *)
Record CommentData := {
  cd_id : string;
  cd_body : string;
  cd_score : Z;
  cd_created_utc : Z;
  cd_created_datetime : string;
  cd_permalink : string;
  cd_parent_id : string;
  cd_is_submitter : bool;
  cd_post_id : string;
  cd_depth : Z
}.

(** [comment_data['depth'] = depth] *)
Definition set_depth (comment_data : CommentData) (depth : Z) : CommentData :=
  {| cd_id := cd_id comment_data;
     cd_body := cd_body comment_data;
     cd_score := cd_score comment_data;
     cd_created_utc := cd_created_utc comment_data;
     cd_created_datetime := cd_created_datetime comment_data;
     cd_permalink := cd_permalink comment_data;
     cd_parent_id := cd_parent_id comment_data;
     cd_is_submitter := cd_is_submitter comment_data;
     cd_post_id := cd_post_id comment_data;
     cd_depth := depth |}.

(** ** Insertion-ordered dictionaries *)

Fixpoint dict_get {V : Type} (k : string) (d : list (string * V)) : option V :=
  match d with
  | [] => None
  | (k', v) :: d' => if decide (k = k') then Some v else dict_get k d'
  end.

(** [d[k] = v]: an existing key keeps its position. *)
Fixpoint dict_set {V : Type} (k : string) (v : V) (d : list (string * V))
  : list (string * V) :=
  match d with
  | [] => [(k, v)]
  | (k', v') :: d' =>
      if decide (k = k') then (k, v) :: d' else (k', v') :: dict_set k v d'
  end.

(** [k in d] *)
Definition dict_mem {V : Type} (k : string) (d : list (string * V)) : bool :=
  match dict_get k d with Some _ => true | None => false end.

(** [if k not in d: d[k] = []] followed by [d[k].append(v)] (lines 185-188). *)
Definition dict_append {V : Type} (k : string) (v : V)
    (d : list (string * list V)) : list (string * list V) :=
  match dict_get k d with
  | None => dict_set k [v] d
  | Some l => dict_set k (l ++ [v]) d
  end.

(** ** [list.sort(key=lambda x: x['created_utc'])] *)

Fixpoint sort_insert (x : CommentData) (l : list CommentData) : list CommentData :=
  match l with
  | [] => [x]
  | y :: l' =>
      if bool_decide (cd_created_utc x ≤ cd_created_utc y)%Z
      then x :: y :: l'
      else y :: sort_insert x l'
  end.

Definition list_sort (l : list CommentData) : list CommentData :=
  foldr sort_insert [] l.

(** ** First pass (lines 105-132) *)

Section first_pass.
Variable fromtimestamp_isoformat : Z → string.

Definition comment_data_of (comment : Comment) : CommentData :=
  {| cd_id := c_id comment;
     cd_body := c_body comment;
     cd_score := c_score comment;
     cd_created_utc := c_created_utc comment;
     cd_created_datetime := fromtimestamp_isoformat (c_created_utc comment);
     cd_permalink := "https://reddit.com" +:+ c_permalink comment;
     cd_parent_id := c_parent_id comment;
     cd_is_submitter := c_is_submitter comment;
     cd_post_id := c_submission_id comment;
     cd_depth := 0 |}.

(** The body of the [for comment in user.comments.new(limit=None)] loop. *)
Definition first_pass_step (post_ids : list string)
    (st : list (string * CommentData) * gset string) (comment : Comment)
  : list (string * CommentData) * gset string :=
  let '(all_user_comments, top_level_comment_ids) := st in
  let post_id := c_submission_id comment in
  if bool_decide (post_id ∈ post_ids) then
    let comment_data := comment_data_of comment in
    let all_user_comments := dict_set (c_id comment) comment_data all_user_comments in
    if startswith (c_parent_id comment) "t3_"
    then (all_user_comments, {[ c_id comment ]} ∪ top_level_comment_ids)
    else (all_user_comments, top_level_comment_ids)
  else st.

Definition first_pass (stream : list Comment) (post_ids : list string)
  : list (string * CommentData) * gset string :=
  foldl (first_pass_step post_ids) ([], ∅) stream.
End first_pass.

(** ** Second pass (lines 134-188) *)

(** How the loop of the second pass ends: it runs to its end, the membership
    test raises [RecursionError], or the depth walk has not finished. *)
Inductive Completion (A : Type) : Type :=
  | Done (a : A)
  | RecursionError
  | Unfinished.

Arguments Done {A} a.
Arguments RecursionError {A}.
Arguments Unfinished {A}.

(** Line 160: the comment id a non-submission [parent_id] refers to. *)
Definition parent_comment_id_of (parent_id : string) : string :=
  if startswith parent_id "t1_" then slice_from 3 parent_id else parent_id.

Section second_pass.
Variable all_user_comments : list (string * CommentData).
Variable top_level_comment_ids : gset string.

(** [is_in_user_chain(comment_id, visited)].  The [visited] set is shared
    by the whole recursion; the recursion is linear, so the updated set is
    passed down.  [frames] is the number of nested calls the interpreter
    still allows, [None] the [RecursionError] of a call beyond it. *)
Fixpoint is_in_user_chain (frames : nat) (comment_id : string)
    (visited : gset string) : option bool :=
  match frames with
  | O => None
  | S frames' =>
      if bool_decide (comment_id ∈ visited) then Some false
      else
        let visited := {[ comment_id ]} ∪ visited in
        if bool_decide (comment_id ∈ top_level_comment_ids) then Some true
        else
          match dict_get comment_id all_user_comments with
          | None => Some false
          | Some comment_data =>
              let parent_id := cd_parent_id comment_data in
              if startswith parent_id "t3_" then Some false
              else
                let parent_comment_id := parent_comment_id_of parent_id in
                if dict_mem parent_comment_id all_user_comments
                then is_in_user_chain frames' parent_comment_id visited
                else Some false
          end
  end.

(** The [while current_parent.startswith('t1_')] loop (lines 175-181),
    started with [depth] and [current_parent]. *)
Fixpoint depth_walk (fuel : nat) (current_parent : string) (depth : Z)
  : option Z :=
  match fuel with
  | O => None
  | S fuel' =>
      if startswith current_parent "t1_" then
        let depth := (depth + 1)%Z in
        let parent_comment_id := slice_from 3 current_parent in
        match dict_get parent_comment_id all_user_comments with
        | Some parent_data => depth_walk fuel' (cd_parent_id parent_data) depth
        | None => Some depth
        end
      else Some depth
  end.

(** The condition of line 167; [None] is the [RecursionError] of the
    membership test. *)
Definition retained (recursion_limit : nat) (comment_id : string) : option bool :=
  if bool_decide (comment_id ∈ top_level_comment_ids) then Some true
  else is_in_user_chain recursion_limit comment_id ∅.

(** Lines 170-183: the record as it is appended to its group. *)
Definition with_depth (fuel : nat) (comment_id : string)
    (comment_data : CommentData) : option CommentData :=
  if bool_decide (comment_id ∈ top_level_comment_ids) then Some comment_data
  else
    depth ← depth_walk fuel (cd_parent_id comment_data) 0;
    Some (set_depth comment_data depth).

(** The [for comment_id, comment_data in all_user_comments.items()] loop,
    over the remaining [items], with the current [comments_by_post].  The
    first comment whose membership test raises, or whose depth walk does not
    finish, decides how the loop ends. *)
Fixpoint second_pass (recursion_limit fuel : nat)
    (items : list (string * CommentData))
    (comments_by_post : list (string * list CommentData))
  : Completion (list (string * list CommentData)) :=
  match items with
  | [] => Done comments_by_post
  | (comment_id, comment_data) :: items' =>
      match retained recursion_limit comment_id with
      | None => RecursionError
      | Some true =>
          let post_id := cd_post_id comment_data in
          match with_depth fuel comment_id comment_data with
          | None => Unfinished
          | Some comment_data =>
              second_pass recursion_limit fuel items'
                (dict_append post_id comment_data comments_by_post)
          end
      | Some false => second_pass recursion_limit fuel items' comments_by_post
      end
  end.
End second_pass.

(** Lines 190-192. *)
Definition sort_groups (comments_by_post : list (string * list CommentData))
  : list (string * list CommentData) :=
  (λ '(post_id, comments), (post_id, list_sort comments)) <$> comments_by_post.

(** ** The whole function *)

(** Lines 88-198.  The body is in a [try]; the one exception the model can
    raise is the [RecursionError] of the membership test, and the handler of
    lines 196-198 returns the empty dictionary. *)
Definition get_user_comments_on_posts (fromtimestamp_isoformat : Z → string)
    (recursion_limit fuel : nat) (stream : list Comment) (post_ids : list string)
  : option (list (string * list CommentData)) :=
  let '(all_user_comments, top_level_comment_ids) :=
    first_pass fromtimestamp_isoformat stream post_ids in
  match second_pass all_user_comments top_level_comment_ids
          recursion_limit fuel all_user_comments [] with
  | Done comments_by_post => Some (sort_groups comments_by_post)
  | RecursionError => Some []
  | Unfinished => None
  end.

(** ** Sample inputs *)

#[global] Instance Comment_eq_dec : EqDecision Comment.
Proof. solve_decision. Defined.

#[global] Instance CommentData_eq_dec : EqDecision CommentData.
Proof. solve_decision. Defined.

Definition mk_comment (id parent_id post_id : string) (created_utc : Z) : Comment :=
  {| c_id := id; c_body := "body of " +:+ id; c_score := 1;
     c_created_utc := created_utc; c_permalink := "/r/hfy/comments/" +:+ id;
     c_parent_id := parent_id; c_is_submitter := true;
     c_submission_id := post_id |}.

Definition iso0 : Z → string := λ _, "1970-01-01T00:00:00".

(** Scenario 2 of the specification, in the order [comments.new] yields it
    (newest first). *)
Definition scenario2 : list Comment :=
  [ mk_comment "C2" "t1_C1" "P1" 20; mk_comment "C1" "t3_P1" "P1" 10 ].

(** A stream with a two-cycle [A], [B], a self-parent [S], a dangling parent
    [D], a chain [R] <- [M] <- [N], two comments created at the same time
    ([T1], [T2]) and a top-level comment [Q] on a post that is not a
    target. *)
Definition mixed : list Comment :=
  [ mk_comment "A" "t1_B" "P1" 70; mk_comment "B" "t1_A" "P1" 60;
    mk_comment "S" "t1_S" "P1" 50; mk_comment "D" "t1_gone" "P1" 40;
    mk_comment "N" "t1_M" "P1" 30; mk_comment "M" "t1_R" "P1" 20;
    mk_comment "T1" "t3_P2" "P2" 15; mk_comment "T2" "t3_P2" "P2" 15;
    mk_comment "R" "t3_P1" "P1" 10; mk_comment "Q" "t3_P9" "P9" 5 ].

Definition mixed_targets : list string := [ "P1"; "P2" ].

Definition mixed_output : list (string * list CommentData) :=
  Eval vm_compute in
    default [] (get_user_comments_on_posts iso0 1000 11 mixed mixed_targets).

Definition mixed_P1 : list CommentData :=
  Eval vm_compute in default [] (dict_get "P1" mixed_output).

Definition mixed_P2 : list CommentData :=
  Eval vm_compute in default [] (dict_get "P2" mixed_output).

Definition mixed_N : CommentData :=
  Eval vm_compute in default (comment_data_of iso0 (mk_comment "" "" "" 0))
                       (last mixed_P1).

(** The same id twice, first with a submission as its parent and then with a
    comment as its parent that in turn replies to it. *)
Definition duplicated : list Comment :=
  [ mk_comment "X" "t3_P1" "P1" 30; mk_comment "X" "t1_Y" "P1" 20;
    mk_comment "Y" "t1_X" "P1" 10 ].

(** The same id twice, first with a submission as its parent and then with a
    comment as its parent that is not in the stream. *)
Definition repeated : list Comment :=
  [ mk_comment "X" "t3_P1" "P1" 20; mk_comment "X" "t1_gone" "P1" 10 ].

(** The record of the second [X] as the run on [repeated] returns it. *)
Definition repeated_X : CommentData :=
  comment_data_of iso0 (mk_comment "X" "t1_gone" "P1" 10).

(** A reply whose parent reference carries no tag, and its parent. *)
Definition untagged : list Comment :=
  [ mk_comment "U" "R" "P1" 20; mk_comment "R" "t3_P1" "P1" 10 ].

(** A top-level comment on a post that is not a target. *)
Definition off_target : list Comment :=
  [ mk_comment "Q" "t3_P9" "P9" 5 ].

(** A reply created before the comment it replies to. *)
Definition reply_first : list Comment :=
  [ mk_comment "C1" "t3_P1" "P1" 20; mk_comment "C2" "t1_C1" "P1" 10 ].

(** A top-level comment [c0] and [n] replies [c1], [c2], ..., each to the
    one before it, newest first: the stream of a user who answers their own
    comment [n] times. *)
Definition reply_id (n : nat) : string := "c" +:+ pretty n.

Definition reply (n : nat) : Comment :=
  match n with
  | O => mk_comment (reply_id 0) "t3_P1" "P1" 0
  | S n' => mk_comment (reply_id n) ("t1_" +:+ reply_id n') "P1" (Z.of_nat n)
  end.

Fixpoint reply_chain (n : nat) : list Comment :=
  match n with
  | O => [ reply 0 ]
  | S n' => reply (S n') :: reply_chain n'
  end.

(** ** Predicates used in the statements *)

(** [comment] is on one of the target posts (line 113). *)
Definition on_target (post_ids : list string) (comment : Comment) : Prop :=
  c_submission_id comment ∈ post_ids.

(** The parent reference is a submission reference (line 130). *)
Definition top_level (comment : Comment) : Prop :=
  startswith (c_parent_id comment) "t3_" = true.

(** The parent reference is a comment reference (line 175). *)
Definition comment_ref (parent_id : string) : Prop :=
  startswith parent_id "t1_" = true.

(** Every parent reference carries one of Reddit's two tags. *)
Definition tagged_parents (stream : list Comment) : Prop :=
  ∀ c, c ∈ stream → top_level c ∨ comment_ref (c_parent_id c).

(** Comment ids are unique in the stream. *)
Definition unique_ids (stream : list Comment) : Prop :=
  NoDup (c_id <$> stream).

(** The comments of the stream on the target posts: the collection the
    reconstruction works on. *)
Definition on_target_posts (post_ids : list string) (stream : list Comment)
  : list Comment :=
  filter (λ c, c_submission_id c ∈ post_ids) stream.

(** Chain membership as the specification words it, over a collection of
    comment records: a comment is a member of a user chain when its parent
    reference points to a submission, or when it points to another comment of
    the collection that is a member.  [spec_hops collection c n] counts the
    comment-to-comment hops from [c] to its root. *)
Inductive spec_hops (collection : list Comment) : Comment → nat → Prop :=
  | spec_hops_root c :
      c ∈ collection → top_level c →
      spec_hops collection c 0
  | spec_hops_reply c p n :
      c ∈ collection → comment_ref (c_parent_id c) →
      p ∈ collection → c_id p = slice_from 3 (c_parent_id c) →
      spec_hops collection p n →
      spec_hops collection c (S n).

Definition spec_member (collection : list Comment) (c : Comment) : Prop :=
  ∃ n, spec_hops collection c n.

(** The same notion with the parent resolved as line 160 resolves it (a
    reference without the [t1_] tag is taken as the id itself), over the
    comments on the target posts: [chain_hops stream post_ids c n] says that
    the membership test follows [n] parent links from [c] to a top-level
    comment. *)
Inductive chain_hops (stream : list Comment) (post_ids : list string)
  : Comment → nat → Prop :=
  | hops_root c :
      c ∈ stream → on_target post_ids c → top_level c →
      chain_hops stream post_ids c 0
  | hops_reply c p n :
      c ∈ stream → on_target post_ids c → ¬ top_level c →
      p ∈ stream → on_target post_ids p →
      c_id p = parent_comment_id_of (c_parent_id c) →
      chain_hops stream post_ids p n →
      chain_hops stream post_ids c (S n).

Definition user_chain (stream : list Comment) (post_ids : list string)
    (c : Comment) : Prop :=
  ∃ n, chain_hops stream post_ids c n.

(** A record of the output mapping. *)
Definition in_output (out : list (string * list CommentData))
    (comment_data : CommentData) : Prop :=
  ∃ post_id comments, (post_id, comments) ∈ out ∧ comment_data ∈ comments.

(** The comment with this id appears in the output mapping. *)
Definition appears (out : list (string * list CommentData)) (id : string) : Prop :=
  ∃ comment_data, in_output out comment_data ∧ cd_id comment_data = id.

(** What the loop of the first pass maintains between the part of the stream
    it has read and its two variables. *)
Record first_pass_inv (iso : Z → string) (post_ids : list string)
    (stream : list Comment)
    (all : list (string * CommentData)) (top : gset string) : Prop := {
  inv_NoDup : NoDup all.*1;
  inv_origin : ∀ id cd, dict_get id all = Some cd →
    ∃ c, c ∈ stream ∧ on_target post_ids c ∧ c_id c = id ∧
         cd = comment_data_of iso c;
  inv_indexed : ∀ c, c ∈ stream → on_target post_ids c →
    is_Some (dict_get (c_id c) all);
  inv_top : ∀ id, id ∈ top ↔
    ∃ c, c ∈ stream ∧ on_target post_ids c ∧ c_id c = id ∧ top_level c;
  inv_top_of_record : ∀ id cd, dict_get id all = Some cd →
    startswith (cd_parent_id cd) "t3_" = true → id ∈ top;
  inv_order : sublist all.*1 (c_id <$> stream)
}.

(** The same notion on the index and the set of top-level ids the first pass
    builds: [reaches all top id n] follows the parent links of
    [is_in_user_chain] from [id] to an id of [top] in [n] hops. *)
Inductive reaches (all_user_comments : list (string * CommentData))
    (top_level_comment_ids : gset string) : string → nat → Prop :=
  | reaches_top id :
      id ∈ top_level_comment_ids →
      reaches all_user_comments top_level_comment_ids id 0
  | reaches_step id comment_data n :
      id ∉ top_level_comment_ids →
      dict_get id all_user_comments = Some comment_data →
      startswith (cd_parent_id comment_data) "t3_" = false →
      dict_mem (parent_comment_id_of (cd_parent_id comment_data))
        all_user_comments = true →
      reaches all_user_comments top_level_comment_ids
        (parent_comment_id_of (cd_parent_id comment_data)) n →
      reaches all_user_comments top_level_comment_ids id (S n).

(** The ids of [top_level_comment_ids] are those whose indexed record has a
    submission as its parent. *)
Definition consistent (all_user_comments : list (string * CommentData))
    (top_level_comment_ids : gset string) : Prop :=
  ∀ id, id ∈ top_level_comment_ids →
    ∃ comment_data, dict_get id all_user_comments = Some comment_data ∧
      startswith (cd_parent_id comment_data) "t3_" = true.

(** The records the second pass appends, in the order it appends them, and
    the mapping they are appended to: the loop of [second_pass] read as a
    selection followed by a grouping (lemma [second_pass_selected]). *)
Fixpoint selected (all_user_comments : list (string * CommentData))
    (top_level_comment_ids : gset string) (recursion_limit fuel : nat)
    (items : list (string * CommentData)) : Completion (list CommentData) :=
  match items with
  | [] => Done []
  | (comment_id, comment_data) :: items' =>
      match retained all_user_comments top_level_comment_ids
              recursion_limit comment_id with
      | None => RecursionError
      | Some true =>
          match with_depth all_user_comments top_level_comment_ids
                  fuel comment_id comment_data with
          | None => Unfinished
          | Some comment_data =>
              match selected all_user_comments top_level_comment_ids
                      recursion_limit fuel items' with
              | Done rest => Done (comment_data :: rest)
              | RecursionError => RecursionError
              | Unfinished => Unfinished
              end
          end
      | Some false =>
          selected all_user_comments top_level_comment_ids
            recursion_limit fuel items'
      end
  end.

(** The records a returning run has appended to the mapping it returns: the
    selected ones, or none when the membership test raised. *)
Definition selection (all_user_comments : list (string * CommentData))
    (top_level_comment_ids : gset string) (recursion_limit fuel : nat)
    (items : list (string * CommentData)) (records : list CommentData) : Prop :=
  selected all_user_comments top_level_comment_ids recursion_limit fuel items
    = Done records ∨
  (selected all_user_comments top_level_comment_ids recursion_limit fuel items
     = RecursionError ∧ records = []).

Definition grouped (records : list CommentData)
    (comments_by_post : list (string * list CommentData))
  : list (string * list CommentData) :=
  foldl (λ acc comment_data,
           dict_append (cd_post_id comment_data) comment_data acc)
        comments_by_post records.

(** The records of a list that are on the post [post_id]. *)
Definition on_post (post_id : string) (records : list CommentData)
  : list CommentData :=
  filter (λ comment_data, cd_post_id comment_data = post_id) records.

(** The records of a list created at time [t]. *)
Definition created_at (t : Z) (records : list CommentData) : list CommentData :=
  filter (λ comment_data, cd_created_utc comment_data = t) records.

(** Every indexed parent reference carries one of the two tags. *)
Definition tagged_index (all_user_comments : list (string * CommentData)) : Prop :=
  ∀ id comment_data, dict_get id all_user_comments = Some comment_data →
    startswith (cd_parent_id comment_data) "t3_" = true ∨
    startswith (cd_parent_id comment_data) "t1_" = true.

(** The order [list.sort] establishes. *)
Definition created_le (x y : CommentData) : Prop :=
  (cd_created_utc x ≤ cd_created_utc y)%Z.

(** * The rest of the scraper and the importer

    [get_user_posts_in_subreddit] and [scrape_user_activity] of
    [src/scraper.py], and [create_database_and_tables] and
    [parse_and_insert_data] of [src/parser.py].

    Modelling choices.
    - The submissions [user.submissions.new(limit=limit)] yields are the
      input; [limit] is applied by the data source.
    - [str.lower] is a parameter, [lower].
    - [upvote_ratio] is a float that the code only copies: a rational.
    - [datetime.now().isoformat()] is the parameter [now].
    - What the functions print is not part of the model.
    - The JSON file the importer reads is the one the scraper's [main] writes
      from the result of [scrape_user_activity] ([json.dump] followed by
      [json.load] gives the value back), or a file that cannot be read or
      parsed ([None]).
    - A table is a finite map from the value of its key column to the rest of
      the row: [users] by the [UNIQUE] column [username], [posts] and
      [comments] by the primary key [id].  A table that does not exist is
      [None]; a statement on it raises [sqlite3.OperationalError].
      [AUTOINCREMENT] gives a new row the successor of the largest row id the
      table has ever held or an [INSERT] has ever taken.  Foreign keys are not enforced (SQLite's default),
      disk and locking errors are outside the model. *)

(** ** [get_user_posts_in_subreddit] (lines 45-86) *)

Record Submission := {
  s_id : string;
  s_title : string;
  s_selftext : string;
  s_score : Z;
  s_upvote_ratio : Q;
  s_num_comments : Z;
  s_created_utc : Z;
  s_url : string;
  s_permalink : string;
  s_is_self : bool;
  s_subreddit_display_name : string
}.

(** The [post_data] dictionary built at lines 68-79. *)
Record PostData := {
  pd_id : string;
  pd_title : string;
  pd_text : string;
  pd_score : Z;
  pd_upvote_ratio : Q;
  pd_num_comments : Z;
  pd_created_utc : Z;
  pd_created_datetime : string;
  pd_url : string;
  pd_permalink : string
}.

(** The truth value of a Python string. *)
Definition truthy (s : string) : bool :=
  match s with EmptyString => false | String _ _ => true end.

Section posts.
Variable fromtimestamp_isoformat : Z → string.
Variable lower : string → string.

Definition post_data_of (submission : Submission) : PostData :=
  {| pd_id := s_id submission;
     pd_title := s_title submission;
     pd_text := s_selftext submission;
     pd_score := s_score submission;
     pd_upvote_ratio := s_upvote_ratio submission;
     pd_num_comments := s_num_comments submission;
     pd_created_utc := s_created_utc submission;
     pd_created_datetime := fromtimestamp_isoformat (s_created_utc submission);
     pd_url := s_url submission;
     pd_permalink := "https://reddit.com" +:+ s_permalink submission |}.

(** The body of the [for submission in user.submissions.new(limit=limit)]
    loop. *)
Definition posts_step (subreddit_name : string) (posts : list PostData)
    (submission : Submission) : list PostData :=
  if bool_decide (lower (s_subreddit_display_name submission)
                  = lower subreddit_name) then
    if s_is_self submission && truthy (s_selftext submission)
    then posts ++ [post_data_of submission]
    else posts
  else posts.

Definition get_user_posts_in_subreddit (submissions : list Submission)
    (subreddit_name : string) : list PostData :=
  foldl (posts_step subreddit_name) [] submissions.
End posts.

(** ** [scrape_user_activity] (lines 200-245) *)

(** A post with its [user_comments_count] (line 233). *)
Record ScrapedPost := {
  sp_post : PostData;
  sp_user_comments_count : Z
}.

(** The [result] dictionary of lines 235-243. *)
Record Activity := {
  a_username : string;
  a_subreddit : string;
  a_scraped_at : string;
  a_total_posts : Z;
  a_total_user_comments : Z;
  a_posts : list ScrapedPost;
  a_comments : list (string * list CommentData)
}.

(** What [scrape_user_activity] returns: [{'posts': [], 'comments': {}}]
    (line 219) or the full dictionary. *)
Inductive ScrapeResult :=
  | NoPosts
  | Scraped (result : Activity).

(** [len(comments.get(post['id'], []))] *)
Definition user_comments_count (comments : list (string * list CommentData))
    (post : PostData) : Z :=
  Z.of_nat (length (default [] (dict_get (pd_id post) comments))).

(** [sum(len(comments_list) for comments_list in comments.values())] *)
Definition total_user_comments (comments : list (string * list CommentData)) : Z :=
  foldr Z.add 0%Z ((λ comments_list, Z.of_nat (length comments_list)) <$> comments.*2).

Definition scrape_user_activity (fromtimestamp_isoformat : Z → string)
    (lower : string → string) (now : string) (recursion_limit fuel : nat)
    (submissions : list Submission) (stream : list Comment)
    (username subreddit_name : string) : option ScrapeResult :=
  let posts :=
    get_user_posts_in_subreddit fromtimestamp_isoformat lower
      submissions subreddit_name in
  match posts with
  | [] => Some NoPosts
  | _ :: _ =>
      let post_ids := pd_id <$> posts in
      comments ←
        get_user_comments_on_posts fromtimestamp_isoformat recursion_limit fuel
          stream post_ids;
      let posts :=
        (λ post, {| sp_post := post;
                    sp_user_comments_count := user_comments_count comments post |})
          <$> posts in
      Some (Scraped
        {| a_username := username;
           a_subreddit := subreddit_name;
           a_scraped_at := now;
           a_total_posts := Z.of_nat (length posts);
           a_total_user_comments := total_user_comments comments;
           a_posts := posts;
           a_comments := comments |})
  end.

(** ** The database of [src/parser.py] *)

(** A row of [users], without its [username]. *)
Record UserRow := {
  u_id : Z;
  u_subreddit : string;
  u_scraped_at : string;
  u_total_posts : Z;
  u_total_user_comments : Z
}.

(** A row of [posts], without its [id]: the [user_id] and the columns taken
    from the post.  A row of [comments] has the columns of [CommentData]. *)
Record PostRow := {
  pr_user_id : Z;
  pr_post : ScrapedPost
}.

(** The [users] table with the largest row id it has ever held
    ([sqlite_sequence]). *)
Record UsersTable := {
  ut_rows : gmap string UserRow;
  ut_seq : Z
}.

Record Database := {
  db_users : option UsersTable;
  db_posts : option (gmap string PostRow);
  db_comments : option (gmap string CommentData)
}.

(** A database file without tables. *)
Definition no_tables : Database :=
  {| db_users := None; db_posts := None; db_comments := None |}.

(** [create_database_and_tables] (lines 4-58): three
    [CREATE TABLE IF NOT EXISTS]. *)
Definition create_database_and_tables (db : Database) : Database :=
  {| db_users := Some (default {| ut_rows := ∅; ut_seq := 0 |} (db_users db));
     db_posts := Some (default ∅ (db_posts db));
     db_comments := Some (default ∅ (db_comments db)) |}.

(** The largest row id of [users], past and present. *)
Definition largest_user_id (users : UsersTable) : Z :=
  foldr Z.max (ut_seq users) (u_id <$> (map_to_list (ut_rows users)).*2).

(** [INSERT OR IGNORE INTO users (username, subreddit, scraped_at,
    total_posts, total_user_comments)].  The statement takes the next row id
    and records it in [sqlite_sequence] before the [UNIQUE] constraint on
    [username] is checked: a conflict leaves the rows as they are, and the
    sequence has advanced all the same. *)
Definition insert_or_ignore_user (data : Activity) (users : UsersTable)
  : UsersTable :=
  let id := (largest_user_id users + 1)%Z in
  match ut_rows users !! a_username data with
  | Some _ => {| ut_rows := ut_rows users; ut_seq := id |}
  | None =>
      {| ut_rows :=
           <[ a_username data :=
                {| u_id := id;
                   u_subreddit := a_subreddit data;
                   u_scraped_at := a_scraped_at data;
                   u_total_posts := a_total_posts data;
                   u_total_user_comments := a_total_user_comments data |} ]>
             (ut_rows users);
         ut_seq := id |}
  end.

(** [SELECT id FROM users WHERE username = ?] followed by [fetchone]. *)
Definition select_user_id (username : string) (users : UsersTable) : option Z :=
  u_id <$> ut_rows users !! username.

(** A run of [INSERT OR REPLACE] statements on one table, one per row; the
    outer [None] is the [OperationalError] of the first statement on a table
    that does not exist. *)
Fixpoint insert_or_replace_rows {V : Type} (rows : list (string * V))
    (table : option (gmap string V)) : option (option (gmap string V)) :=
  match rows with
  | [] => Some table
  | (id, row) :: rows' =>
      match table with
      | None => None
      | Some t => insert_or_replace_rows rows' (Some (<[ id := row ]> t))
      end
  end.

(** How a call of [parse_and_insert_data] ends. *)
Inductive Outcome :=
  | Inserted
  | UnreadableFile
  | CouldNotRetrieveUserId
  | RaisedKeyError (key : string)
  | RaisedNoSuchTable (table : string).

(** The rows of the two loops of lines 95-117, in the order of the
    statements. *)
Definition post_rows (user_id : Z) (data : Activity) : list (string * PostRow) :=
  (λ post, (pd_id (sp_post post), {| pr_user_id := user_id; pr_post := post |}))
    <$> a_posts data.

Definition comment_rows (data : Activity) : list (string * CommentData) :=
  (λ comment, (cd_id comment, comment)) <$> concat (a_comments data).*2.

(** [parse_and_insert_data] (lines 60-118), on the content of the file
    ([None]: it cannot be read or parsed) and the state the cursor works
    on.  The state returned with an exception is the one the statements
    executed so far have left. *)
Definition parse_and_insert_data (file : option ScrapeResult) (db : Database)
  : Database * Outcome :=
  match file with
  | None => (db, UnreadableFile)
  | Some NoPosts => (db, RaisedKeyError "username")
  | Some (Scraped data) =>
      match db_users db with
      | None => (db, RaisedNoSuchTable "users")
      | Some users =>
          let users := insert_or_ignore_user data users in
          let db := {| db_users := Some users;
                       db_posts := db_posts db;
                       db_comments := db_comments db |} in
          match select_user_id (a_username data) users with
          | None => (db, CouldNotRetrieveUserId)
          | Some user_id =>
              match insert_or_replace_rows (post_rows user_id data) (db_posts db) with
              | None => (db, RaisedNoSuchTable "posts")
              | Some posts =>
                  let db := {| db_users := db_users db;
                               db_posts := posts;
                               db_comments := db_comments db |} in
                  match insert_or_replace_rows (comment_rows data) (db_comments db) with
                  | None => (db, RaisedNoSuchTable "comments")
                  | Some comments =>
                      ({| db_users := db_users db;
                          db_posts := db_posts db;
                          db_comments := comments |}, Inserted)
                  end
              end
          end
      end
  end.

(** ** Sample inputs for the scraper and the importer *)

#[global] Instance Q_eq_dec : EqDecision Q.
Proof. solve_decision. Defined.

Definition mk_submission (id subreddit selftext : string) (is_self : bool)
  : Submission :=
  {| s_id := id; s_title := "title of " +:+ id; s_selftext := selftext;
     s_score := 7; s_upvote_ratio := (97 # 100)%Q; s_num_comments := 3;
     s_created_utc := 100; s_url := "https://redd.it/" +:+ id;
     s_permalink := "/r/hfy/comments/" +:+ id; s_is_self := is_self;
     s_subreddit_display_name := subreddit |}.

(** Lower case for the letters the sample names use. *)
Definition lower0 (s : string) : string :=
  if bool_decide (s = "HFY") then "hfy" else s.

(** Two text posts in the subreddit, a link post, a text post without text
    and a text post elsewhere. *)
Definition sample_submissions : list Submission :=
  [ mk_submission "P1" "HFY" "chapter one" true;
    mk_submission "L1" "HFY" "" false;
    mk_submission "E1" "hfy" "" true;
    mk_submission "P9" "other" "elsewhere" true;
    mk_submission "P2" "HFY" "chapter two" true ].

Definition sample_scrape : option ScrapeResult :=
  scrape_user_activity iso0 lower0 "2026-01-01T00:00:00" 1000 11
    sample_submissions mixed "author" "hfy".

Definition sample_activity : Activity :=
  Eval vm_compute in
    match sample_scrape with
    | Some (Scraped data) => data
    | _ => {| a_username := ""; a_subreddit := ""; a_scraped_at := "";
              a_total_posts := 0; a_total_user_comments := 0;
              a_posts := []; a_comments := [] |}
    end.

(** The database after a first import into a new file. *)
Definition sample_db : Database :=
  (parse_and_insert_data (Some (Scraped sample_activity))
     (create_database_and_tables no_tables)).1.

(** The database after the same file has been imported a second time. *)
Definition sample_db_again : Database :=
  (parse_and_insert_data (Some (Scraped sample_activity)) sample_db).1.

Definition sample_users : UsersTable :=
  default {| ut_rows := ∅; ut_seq := 0 |} (db_users sample_db).

Definition sample_user_row : UserRow :=
  {| u_id := 1; u_subreddit := "hfy"; u_scraped_at := "2026-01-01T00:00:00";
     u_total_posts := 2; u_total_user_comments := 5 |}.

(** The result of a scrape for another user, and the database after it has
    been imported on top of the first. *)
Definition other_activity : Activity :=
  {| a_username := "someone"; a_subreddit := "hfy";
     a_scraped_at := "2026-02-02T00:00:00";
     a_total_posts := 1; a_total_user_comments := 1;
     a_posts :=
       [ {| sp_post := post_data_of iso0 (mk_submission "Z1" "HFY" "text" true);
            sp_user_comments_count := 1 |} ];
     a_comments :=
       [ ("Z1", [comment_data_of iso0 (mk_comment "Z" "t3_Z1" "Z1" 5)]) ] |}.

Definition sample_db2 : Database :=
  (parse_and_insert_data (Some (Scraped other_activity)) sample_db).1.

(** The second post of the sample result. *)
Definition sample_post2 : ScrapedPost :=
  {| sp_post := post_data_of iso0 (mk_submission "P2" "HFY" "chapter two" true);
     sp_user_comments_count := 2 |}.

(** ** Predicates used in the statements about them *)

(** A submission the loop of [get_user_posts_in_subreddit] keeps: a self
    post with a text, in the subreddit asked for up to case. *)
Definition text_post_in (lower : string → string) (subreddit_name : string)
    (submission : Submission) : Prop :=
  lower (s_subreddit_display_name submission) = lower subreddit_name ∧
  s_is_self submission = true ∧
  s_selftext submission ≠ "".

#[global] Instance text_post_in_dec lower subreddit_name submission :
  Decision (text_post_in lower subreddit_name submission).
Proof. unfold text_post_in. apply _. Defined.

(** The sum of the [user_comments_count] of the posts of a result. *)
Definition sum_of_counts (posts : list ScrapedPost) : Z :=
  foldr Z.add 0%Z (sp_user_comments_count <$> posts).

(** * Proofs *)

(** Closed side conditions on the sample inputs are decided by evaluation. *)
Ltac by_evaluation := apply (bool_decide_unpack _); vm_compute; exact I.

(** ** Strings *)

Lemma startswith_t3_not_t1 s :
  startswith s "t3_" = true → startswith s "t1_" = false.
Proof.
  unfold startswith. intros H3.
  destruct (String.prefix "t1_" s) eqn:H1; [|done].
  apply String.prefix_correct in H3, H1.
  change (String.length "t3_") with 3 in H3.
  change (String.length "t1_") with 3 in H1.
  rewrite H3 in H1. discriminate.
Qed.

Lemma startswith_t1_not_t3 s :
  startswith s "t1_" = true → startswith s "t3_" = false.
Proof.
  intros H1. destruct (startswith s "t3_") eqn:H3; [|done].
  apply startswith_t3_not_t1 in H3. congruence.
Qed.

Lemma startswith_app p s : startswith (p +:+ s) p = true.
Proof.
  unfold startswith. induction p as [|a p IH]; simpl.
  - by destruct s.
  - by destruct (Ascii.ascii_dec a a).
Qed.

(** ** Lists *)

Lemma NoDup_fmap_elem_inj {A B : Type} (f : A → B) (l : list A) x y :
  NoDup (f <$> l) → x ∈ l → y ∈ l → f x = f y → x = y.
Proof.
  induction l as [|a l IH].
  - intros _ Hx. by apply elem_of_nil in Hx.
  - rewrite fmap_cons. intros [Ha Hnd]%NoDup_cons.
    rewrite !elem_of_cons. intros [->|Hx] [->|Hy] Heq; try done.
    + exfalso. apply Ha. rewrite Heq. by apply list_elem_of_fmap_2.
    + exfalso. apply Ha. rewrite <- Heq. by apply list_elem_of_fmap_2.
    + auto.
Qed.

Lemma elem_of_concat {A : Type} (x : A) (ls : list (list A)) :
  x ∈ concat ls ↔ ∃ l, x ∈ l ∧ l ∈ ls.
Proof.
  induction ls as [|l0 ls IH]; simpl.
  - split; [intros Hx; by apply elem_of_nil in Hx|].
    intros (l & _ & Hl). by apply elem_of_nil in Hl.
  - rewrite elem_of_app, IH. split.
    + intros [Hx|(l & Hx & Hl)]; [exists l0 | exists l]; split; try done;
        [left | by right].
    + intros (l & Hx & [->|Hl]%elem_of_cons); [by left | right; eauto].
Qed.

(** ** Dictionaries *)

Section dict_facts.
Context {V : Type}.
Implicit Types (d : list (string * V)) (k : string) (v : V).

Lemma dict_get_Some_elem k v d : dict_get k d = Some v → (k, v) ∈ d.
Proof.
  induction d as [|[k' v'] d IH]; simpl; [done|].
  case_decide; intros Hg.
  - simplify_eq. left.
  - right. auto.
Qed.

Lemma dict_get_None k d : dict_get k d = None ↔ k ∉ d.*1.
Proof.
  induction d as [|[k' v'] d IH]; simpl.
  - split; [intros _; apply not_elem_of_nil | done].
  - rewrite not_elem_of_cons. destruct (decide (k = k')) as [->|Hne].
    + split; [done | intros [? _]; done].
    + rewrite IH. split; [by split | by intros [_ ?]].
Qed.

Lemma dict_get_is_Some k d : is_Some (dict_get k d) ↔ k ∈ d.*1.
Proof.
  destruct (dict_get k d) eqn:Hg.
  - split; [intros _ | eauto].
    apply dict_get_Some_elem in Hg.
    change k with ((k, v).1). by apply list_elem_of_fmap_2.
  - apply dict_get_None in Hg. split; [intros [? ?]; done | done].
Qed.

Lemma dict_mem_true k d : dict_mem k d = true ↔ k ∈ d.*1.
Proof.
  rewrite <- dict_get_is_Some. unfold dict_mem.
  destruct (dict_get k d); split; eauto; try done.
Qed.

Lemma dict_get_elem k v d : NoDup d.*1 → (k, v) ∈ d → dict_get k d = Some v.
Proof.
  induction d as [|[k' v'] d IH]; simpl; intros Hnd Hin.
  - by apply elem_of_nil in Hin.
  - apply NoDup_cons in Hnd as [Hk' Hnd].
    apply elem_of_cons in Hin as [Heq | Hin].
    + simplify_eq. by rewrite decide_True.
    + case_decide as Hk; [|auto].
      subst k'. exfalso. apply Hk'.
      change k with ((k, v).1). by apply list_elem_of_fmap_2.
Qed.

Lemma dict_get_set_eq k v d : dict_get k (dict_set k v d) = Some v.
Proof.
  induction d as [|[k' v'] d IH]; simpl.
  - by rewrite decide_True.
  - case_decide; simpl; [by rewrite decide_True | by rewrite decide_False].
Qed.

Lemma dict_get_set_ne k k' v d :
  k ≠ k' → dict_get k' (dict_set k v d) = dict_get k' d.
Proof.
  intros Hne. induction d as [|[k0 v0] d IH]; simpl.
  - by rewrite decide_False.
  - destruct (decide (k = k0)) as [->|]; simpl.
    + by rewrite !decide_False.
    + by rewrite IH.
Qed.

Lemma dict_set_keys k v d :
  (dict_set k v d).*1 = if dict_mem k d then d.*1 else d.*1 ++ [k].
Proof.
  unfold dict_mem. induction d as [|[k0 v0] d IH]; [done|].
  cbn [dict_set dict_get].
  destruct (decide (k = k0)) as [->|]; [done|].
  rewrite !fmap_cons, IH. by destruct (dict_get k d).
Qed.

Lemma dict_set_elem k v k' v' d :
  (k', v') ∈ dict_set k v d → (k' = k ∧ v' = v) ∨ (k', v') ∈ d.
Proof.
  induction d as [|[k0 v0] d IH]; simpl.
  - intros Hin%list_elem_of_singleton. left. by simplify_eq.
  - case_decide; rewrite !elem_of_cons; naive_solver.
Qed.

Lemma dict_set_NoDup k v d : NoDup d.*1 → NoDup (dict_set k v d).*1.
Proof.
  intros Hnd. rewrite dict_set_keys.
  destruct (dict_mem k d) eqn:Hm; [done|].
  apply NoDup_app. split_and!; [done| |apply NoDup_singleton].
  intros x Hx ->%list_elem_of_singleton.
  apply dict_mem_true in Hx. congruence.
Qed.
End dict_facts.

(** ** The first pass *)

Section first_pass_facts.
Variable iso : Z → string.
Variable post_ids : list string.

Lemma first_pass_snoc stream c :
  first_pass iso (stream ++ [c]) post_ids =
  first_pass_step iso post_ids (first_pass iso stream post_ids) c.
Proof. unfold first_pass. by rewrite foldl_snoc. Qed.

Lemma first_pass_invariant stream :
  first_pass_inv iso post_ids stream (first_pass iso stream post_ids).1
    (first_pass iso stream post_ids).2.
Proof.
  induction stream as [|c stream IH] using rev_ind.
  - split; simpl; try done.
    + constructor.
    + intros c Hc. by apply elem_of_nil in Hc.
    + intros id. split; [set_solver|]. intros (c & Hc & _). by apply elem_of_nil in Hc.
  - rewrite first_pass_snoc.
    destruct (first_pass iso stream post_ids) as [all top]. simpl in IH.
    destruct IH as [Hnd Horig Hidx Htop Hrec Hord].
    unfold first_pass_step.
    case_bool_decide as Htgt.
    + assert (Hmid :
        first_pass_inv iso post_ids (stream ++ [c])
          (dict_set (c_id c) (comment_data_of iso c) all)
          (if startswith (c_parent_id c) "t3_" then {[c_id c]} ∪ top else top)).
      { split.
        - by apply dict_set_NoDup.
        - intros id cd Hg. destruct (decide (c_id c = id)) as [<-|Hne].
          + rewrite dict_get_set_eq in Hg. simplify_eq.
            exists c. split_and!; try done. set_solver.
          + rewrite dict_get_set_ne in Hg by done.
            destruct (Horig _ _ Hg) as (c' & ? & ? & ? & ?).
            exists c'. split_and!; try done. set_solver.
        - intros c' Hc' Ht'. destruct (decide (c_id c = c_id c')) as [Heq|Hne].
          + rewrite <- Heq, dict_get_set_eq. eauto.
          + rewrite dict_get_set_ne by done.
            apply elem_of_app in Hc' as [Hc'|Hc'%list_elem_of_singleton];
              [auto | by subst].
        - intros id.
          destruct (startswith (c_parent_id c) "t3_") eqn:Hp.
          + rewrite elem_of_union, elem_of_singleton, Htop. split.
            * intros [->|(c' & ? & ? & ? & ?)].
              -- exists c. split_and!; try done. set_solver.
              -- exists c'. split_and!; try done. set_solver.
            * intros (c' & [Hc'|Hc'%list_elem_of_singleton]%elem_of_app & ? & ? & ?).
              -- right. eauto.
              -- left. by subst.
          + rewrite Htop. split.
            * intros (c' & ? & ? & ? & ?). exists c'. split_and!; try done. set_solver.
            * intros (c' & [Hc'|Hc'%list_elem_of_singleton]%elem_of_app & ? & ? & Ht).
              -- eauto.
              -- subst c'. unfold top_level in Ht. congruence.
        - intros id cd Hg Hp. destruct (decide (c_id c = id)) as [<-|Hne].
          + rewrite dict_get_set_eq in Hg. simplify_eq. simpl in Hp.
            rewrite Hp. set_solver.
          + rewrite dict_get_set_ne in Hg by done.
            specialize (Hrec _ _ Hg Hp).
            destruct (startswith (c_parent_id c) "t3_"); set_solver.
        - rewrite dict_set_keys, fmap_app. simpl.
          destruct (dict_mem (c_id c) all).
          + by apply sublist_inserts_r.
          + by apply sublist_app. }
      by destruct (startswith (c_parent_id c) "t3_").
    + simpl. split; try done.
      * intros id cd Hg. destruct (Horig _ _ Hg) as (c' & ? & ? & ? & ?).
        exists c'. split_and!; try done. set_solver.
      * intros c' [Hc'|Hc'%list_elem_of_singleton]%elem_of_app Ht'; [auto|].
        subst c'. done.
      * intros id. rewrite Htop. split.
        -- intros (c' & ? & ? & ? & ?). exists c'. split_and!; try done. set_solver.
        -- intros (c' & [Hc'|Hc'%list_elem_of_singleton]%elem_of_app & Ht' & ? & ?).
           ++ eauto.
           ++ subst c'. done.
      * rewrite fmap_app. by apply sublist_inserts_r.
Qed.

(** With unique ids the index holds the record of every comment on a
    target post, and the top-level ids are those of the top-level
    records. *)
Lemma unique_ids_inj stream c c' :
  unique_ids stream → c ∈ stream → c' ∈ stream → c_id c = c_id c' → c = c'.
Proof. apply NoDup_fmap_elem_inj. Qed.

Lemma first_pass_lookup stream c :
  unique_ids stream → c ∈ stream → on_target post_ids c →
  dict_get (c_id c) (first_pass iso stream post_ids).1 =
    Some (comment_data_of iso c).
Proof.
  intros Hu Hc Ht.
  destruct (first_pass_invariant stream) as [_ Horig Hidx _ _ _].
  destruct (Hidx c Hc Ht) as [cd Hg]. rewrite Hg.
  destruct (Horig _ _ Hg) as (c' & Hc' & _ & Hid & ->).
  by rewrite (unique_ids_inj stream c' c Hu Hc' Hc Hid).
Qed.

Lemma first_pass_consistent stream :
  unique_ids stream →
  consistent (first_pass iso stream post_ids).1
    (first_pass iso stream post_ids).2.
Proof.
  intros Hu id Hid.
  destruct (first_pass_invariant stream) as [_ _ _ Htop _ _].
  apply Htop in Hid as (c & Hc & Ht & <- & Hp).
  exists (comment_data_of iso c). split; [by apply first_pass_lookup | done].
Qed.

Lemma first_pass_length stream :
  length (first_pass iso stream post_ids).1 ≤ length stream.
Proof.
  destruct (first_pass_invariant stream) as [_ _ _ _ _ Hord].
  apply sublist_length in Hord. by rewrite !length_fmap in Hord.
Qed.
(** Comments on other posts leave no trace in the state of the loop. *)
Lemma first_pass_filter stream :
  first_pass iso (filter (λ c, c_submission_id c ∈ post_ids) stream) post_ids
  = first_pass iso stream post_ids.
Proof.
  unfold first_pass. generalize (([], ∅) : list (string * CommentData) * gset string).
  induction stream as [|c stream IH]; intros st; [done|].
  rewrite filter_cons. case_decide as Ht; simpl.
  - apply IH.
  - rewrite IH. f_equal. unfold first_pass_step. destruct st.
    by rewrite bool_decide_eq_false_2.
Qed.
End first_pass_facts.

(** ** The membership test *)

Lemma size_list_to_set_le (l : list string) :
  size (list_to_set l : gset string) ≤ length l.
Proof.
  induction l as [|x l IHl]; simpl.
  - change (size (∅ : gset string) ≤ 0). by rewrite size_empty.
  - pose proof (size_union_alt ({[x]} : gset string) (list_to_set l)) as Hu.
    rewrite size_singleton in Hu.
    assert (size (list_to_set l ∖ {[x]} : gset string)
            ≤ size (list_to_set l : gset string))
      by (apply subseteq_size; set_solver).
    lia.
Qed.

Section chain_facts.
Variable all : list (string * CommentData).
Variable top : gset string.

Lemma is_in_user_chain_mono fuel fuel' id visited b :
  is_in_user_chain all top fuel id visited = Some b → fuel ≤ fuel' →
  is_in_user_chain all top fuel' id visited = Some b.
Proof.
  revert fuel' id visited.
  induction fuel as [|fuel IH]; intros fuel' id visited; [done|].
  destruct fuel' as [|fuel']; [lia|]. intros Hrun Hle. simpl in *.
  repeat case_bool_decide; try done.
  destruct (dict_get id all) as [cd|]; [|done].
  destruct (startswith (cd_parent_id cd) "t3_"); [done|].
  destruct (dict_mem _ all); [|done].
  apply IH; [done | lia].
Qed.

(** The [visited] guard bounds the recursion by the number of indexed ids
    not yet visited: the test returns on every index, cyclic or not. *)
Lemma is_in_user_chain_total fuel id visited :
  size (list_to_set all.*1 ∖ visited : gset string) < fuel →
  is_Some (is_in_user_chain all top fuel id visited).
Proof.
  revert id visited.
  induction fuel as [|fuel IH]; intros id visited Hsz; [lia|]. simpl.
  case_bool_decide as Hvis; [eauto|].
  case_bool_decide; [eauto|].
  destruct (dict_get id all) as [cd|] eqn:Hg; [|eauto].
  destruct (startswith (cd_parent_id cd) "t3_"); [eauto|].
  destruct (dict_mem _ all); [|eauto].
  apply IH.
  assert (Hid : id ∈ (list_to_set all.*1 : gset string)).
  { apply elem_of_list_to_set, dict_get_is_Some. eauto. }
  assert (Hlt : size (list_to_set all.*1 ∖ ({[id]} ∪ visited) : gset string)
                < size (list_to_set all.*1 ∖ visited : gset string)).
  { apply subset_size. set_solver. }
  lia.
Qed.

Lemma is_in_user_chain_returns fuel id :
  length all < fuel → is_Some (is_in_user_chain all top fuel id ∅).
Proof.
  intros Hlen. apply is_in_user_chain_total.
  assert (Hsub : size (list_to_set all.*1 ∖ ∅ : gset string)
                 ≤ size (list_to_set all.*1 : gset string))
    by (apply subseteq_size; set_solver).
  pose proof (size_list_to_set_le all.*1) as Hle.
  rewrite length_fmap in Hle. lia.
Qed.

Lemma reaches_det id n m :
  reaches all top id n → reaches all top id m → n = m.
Proof.
  intros Hn. revert m.
  induction Hn as [id Hid|id cd n Hid Hg Hp Hm Hn IH]; intros m Hm';
    inversion Hm'; simplify_eq; try done.
  f_equal. auto.
Qed.

Lemma is_in_user_chain_reaches fuel id visited n :
  reaches all top id n →
  (∀ v m, v ∈ visited → reaches all top v m → n < m) →
  n < fuel →
  is_in_user_chain all top fuel id visited = Some true.
Proof.
  intros Hn. revert fuel visited.
  induction Hn as [id Hid|id cd n Hid Hg Hp Hm Hn IH];
    intros fuel visited Hvis Hfuel.
  - destruct fuel as [|fuel]; [lia|]. simpl.
    rewrite bool_decide_eq_false_2.
    + by rewrite bool_decide_eq_true_2.
    + intros Hin. specialize (Hvis id 0 Hin (reaches_top _ _ _ Hid)). lia.
  - destruct fuel as [|fuel]; [lia|]. simpl.
    assert (Hall : reaches all top id (S n)) by (by eapply reaches_step).
    rewrite bool_decide_eq_false_2.
    + rewrite bool_decide_eq_false_2 by done.
      rewrite Hg, Hp, Hm. apply IH; [|lia].
      intros v m [->%elem_of_singleton|Hv]%elem_of_union Hvm.
      * rewrite (reaches_det _ _ _ Hvm Hall). lia.
      * specialize (Hvis _ _ Hv Hvm). lia.
    + intros Hin. specialize (Hvis _ _ Hin Hall). lia.
Qed.

Lemma is_in_user_chain_true fuel id visited :
  is_in_user_chain all top fuel id visited = Some true →
  ∃ n, n < fuel ∧ reaches all top id n.
Proof.
  revert id visited.
  induction fuel as [|fuel IH]; intros id visited; [done|]. simpl.
  case_bool_decide; [done|].
  case_bool_decide as Htop.
  { intros _. exists 0. split; [lia | by constructor]. }
  destruct (dict_get id all) as [cd|] eqn:Hg; [|done].
  destruct (startswith (cd_parent_id cd) "t3_") eqn:Hp; [done|].
  destruct (dict_mem _ all) eqn:Hm; [|done].
  intros (n & Hn & Hr)%IH. exists (S n). split; [lia|].
  by eapply reaches_step.
Qed.

(** A test that returns [True] has followed no more links than the index has
    entries, whatever the number of frames it was given. *)
Lemma is_in_user_chain_true_bound fuel id :
  is_in_user_chain all top fuel id ∅ = Some true →
  ∃ n, n ≤ length all ∧ reaches all top id n.
Proof.
  intros Hrun.
  destruct (decide (fuel ≤ S (length all))) as [Hle|Hgt].
  - apply is_in_user_chain_true in Hrun as (n & Hn & Hreach).
    exists n. split; [lia | done].
  - destruct (is_in_user_chain_returns (S (length all)) id) as [b Hb]; [lia|].
    pose proof (is_in_user_chain_mono _ fuel _ _ _ Hb) as Hb'.
    rewrite Hb' in Hrun by lia. simplify_eq.
    apply is_in_user_chain_true in Hb as (n & Hn & Hreach).
    exists n. split; [lia | done].
Qed.

(** The test with an empty [visited] set decides [reaches]. *)
Lemma is_in_user_chain_spec fuel id b :
  is_in_user_chain all top fuel id ∅ = Some b →
  b = true ↔ ∃ n, reaches all top id n.
Proof.
  intros Hrun. split.
  - intros ->. apply is_in_user_chain_true in Hrun as (n & _ & Hn). eauto.
  - intros [n Hn].
    assert (Hbig : is_in_user_chain all top (fuel + S n) id ∅ = Some true).
    { eapply is_in_user_chain_reaches; [done| |lia]. intros v m Hv. set_solver. }
    apply (is_in_user_chain_mono _ (fuel + S n)) in Hrun; [|lia].
    congruence.
Qed.
End chain_facts.

(** ** The depth walk *)

Section depth_facts.
Variable all : list (string * CommentData).
Variable top : gset string.

Lemma depth_walk_mono fuel fuel' p d r :
  depth_walk all fuel p d = Some r → fuel ≤ fuel' →
  depth_walk all fuel' p d = Some r.
Proof.
  revert fuel' p d.
  induction fuel as [|fuel IH]; intros fuel' p d; [done|].
  destruct fuel' as [|fuel']; [lia|]. intros Hrun Hle. simpl in *.
  destruct (startswith p "t1_"); [|done].
  destruct (dict_get _ all); [|done].
  apply IH; [done | lia].
Qed.

(** The walk only ever adds to the counter it was started with. *)
Lemma depth_walk_shift fuel p d k :
  depth_walk all fuel p (d + k) = (λ r, r + k)%Z <$> depth_walk all fuel p d.
Proof.
  revert p d. induction fuel as [|fuel IH]; intros p d; [done|]. simpl.
  destruct (startswith p "t1_"); [|done].
  replace (d + k + 1)%Z with (d + 1 + k)%Z by lia.
  destruct (dict_get _ all); [|done]. apply IH.
Qed.

Lemma depth_walk_ge fuel p d r :
  depth_walk all fuel p d = Some r → (d ≤ r)%Z.
Proof.
  revert p d. induction fuel as [|fuel IH]; intros p d; [done|]. simpl.
  destruct (startswith p "t1_"); [|intros; simplify_eq; lia].
  destruct (dict_get _ all); [|intros; simplify_eq; lia].
  intros Hr%IH. lia.
Qed.

(** From a record whose chain reaches a top-level id in [n] hops the walk
    returns, having counted at most [n] hops, and exactly [n] when every
    parent reference is tagged. *)
Lemma depth_walk_reaches fuel id cd n d :
  consistent all top →
  reaches all top id n → dict_get id all = Some cd → n < fuel →
  ∃ k : nat, depth_walk all fuel (cd_parent_id cd) d = Some (d + Z.of_nat k)%Z ∧
             k ≤ n ∧ (tagged_index all → k = n).
Proof.
  intros Hcons Hn. revert fuel cd d.
  induction Hn as [id Hid|id cd' n Hid Hg Hp Hm Hn IH];
    intros fuel cd d Hcd Hfuel.
  - destruct (Hcons _ Hid) as (cd' & Hg' & Hp). simplify_eq.
    destruct fuel as [|fuel]; [lia|]. simpl.
    rewrite (startswith_t3_not_t1 _ Hp).
    exists 0. split_and!; [f_equal; lia | lia | done].
  - assert (cd = cd') as -> by congruence.
    destruct fuel as [|fuel]; [lia|]. simpl.
    unfold parent_comment_id_of in Hm, Hn, IH.
    destruct (startswith (cd_parent_id cd') "t1_") eqn:Ht1.
    + unfold dict_mem in Hm.
      destruct (dict_get (slice_from 3 (cd_parent_id cd')) all) as [pd|] eqn:Hpd;
        [|done].
      destruct (IH fuel pd (d + 1)%Z eq_refl) as (k & Hk & Hle & Htag); [lia|].
      exists (S k). split_and!; [rewrite Hk; f_equal; lia | lia | ].
      intros Ht. f_equal. auto.
    + exists 0. split_and!; [f_equal; lia | lia | ].
      intros Ht. destruct (Ht _ _ Hg); congruence.
Qed.
End depth_facts.

(** ** The stable sort *)

Lemma sort_insert_perm x l : sort_insert x l ≡ₚ x :: l.
Proof.
  induction l as [|y l IH]; simpl; [done|].
  case_bool_decide; [done|]. rewrite IH. apply Permutation_swap.
Qed.

Lemma list_sort_perm l : list_sort l ≡ₚ l.
Proof.
  induction l as [|x l IH]; simpl; [done|].
  by rewrite sort_insert_perm, IH.
Qed.

Lemma sort_insert_sorted x l :
  StronglySorted created_le l → StronglySorted created_le (sort_insert x l).
Proof.
  unfold created_le. induction 1 as [|y l Hl IH Hy]; simpl.
  - repeat constructor.
  - case_bool_decide as Hxy.
    + constructor; [by constructor|].
      constructor; [done|].
      eapply Forall_impl; [exact Hy|]. simpl. intros z Hz. lia.
    + constructor; [done|].
      rewrite sort_insert_perm. constructor; [lia | done].
Qed.

Lemma list_sort_sorted l : StronglySorted created_le (list_sort l).
Proof.
  induction l as [|x l IH]; simpl; [constructor|].
  by apply sort_insert_sorted.
Qed.

(** Stability: records created at the same time keep their order. *)
Lemma sort_insert_created_at t x l :
  created_at t (sort_insert x l) = created_at t (x :: l).
Proof.
  unfold created_at. induction l as [|y l IH]; simpl; [done|].
  case_bool_decide as Hxy; [done|].
  rewrite (filter_cons _ y), IH, !filter_cons.
  repeat case_decide; try done. lia.
Qed.

Lemma list_sort_stable t l : created_at t (list_sort l) = created_at t l.
Proof.
  induction l as [|x l IH]; simpl; [done|].
  rewrite sort_insert_created_at. unfold created_at in *.
  by rewrite !filter_cons, IH.
Qed.

(** ** Grouping by post *)

Lemma dict_get_append {V : Type} k k' (v : V) d :
  dict_get k' (dict_append k v d) =
  if decide (k = k') then Some (default [] (dict_get k d) ++ [v])
  else dict_get k' d.
Proof.
  unfold dict_append. case_decide as Hk.
  - subst k'. destruct (dict_get k d); by rewrite dict_get_set_eq.
  - destruct (dict_get k d); by rewrite dict_get_set_ne.
Qed.

Lemma dict_append_NoDup {V : Type} k (v : V) d :
  NoDup d.*1 → NoDup (dict_append k v d).*1.
Proof. unfold dict_append. destruct (dict_get k d); apply dict_set_NoDup. Qed.

Lemma grouped_NoDup records acc : NoDup acc.*1 → NoDup (grouped records acc).*1.
Proof.
  revert acc. induction records as [|cd records IH]; intros acc Hnd; [done|].
  apply IH. by apply dict_append_NoDup.
Qed.

Lemma grouped_get post_id records acc :
  dict_get post_id (grouped records acc) =
  match dict_get post_id acc with
  | Some l => Some (l ++ on_post post_id records)
  | None =>
      match on_post post_id records with
      | [] => None
      | l => Some l
      end
  end.
Proof.
  unfold on_post.
  revert acc. induction records as [|cd records IH]; intros acc.
  - simpl. destruct (dict_get post_id acc); [by rewrite app_nil_r | done].
  - change (grouped (cd :: records) acc)
      with (grouped records (dict_append (cd_post_id cd) cd acc)).
    rewrite IH, dict_get_append, filter_cons.
    destruct (decide (cd_post_id cd = post_id)) as [->|Hne].
    + destruct (dict_get post_id acc); simpl; [by rewrite <- app_assoc | done].
    + done.
Qed.

(** The groups of the mapping built from the empty one. *)
Lemma grouped_elem post_id comments records :
  (post_id, comments) ∈ grouped records [] ↔
  comments = on_post post_id records ∧ comments ≠ [].
Proof.
  pose proof (grouped_get post_id records []) as Hget. simpl in Hget.
  split.
  - intros Hin. apply dict_get_elem in Hin; [|apply grouped_NoDup; constructor].
    rewrite Hin in Hget.
    destruct (on_post post_id records); simplify_eq. done.
  - intros [-> Hne]. apply dict_get_Some_elem.
    rewrite Hget. by destruct (on_post post_id records).
Qed.

Lemma sort_groups_elem post_id comments comments_by_post :
  (post_id, comments) ∈ sort_groups comments_by_post ↔
  ∃ l, (post_id, l) ∈ comments_by_post ∧ comments = list_sort l.
Proof.
  unfold sort_groups. rewrite list_elem_of_fmap. split.
  - intros ([k l] & Heq & Hin). simplify_eq. eauto.
  - intros (l & Hin & ->). by exists (post_id, l).
Qed.

Lemma sort_groups_keys comments_by_post :
  (sort_groups comments_by_post).*1 = comments_by_post.*1.
Proof.
  unfold sort_groups. rewrite <- list_fmap_compose.
  apply list_fmap_ext. by intros _ [k l] _.
Qed.

(** ** The second pass *)

Lemma set_depth_same cd : set_depth cd (cd_depth cd) = cd.
Proof. by destruct cd. Qed.

Section second_pass_facts.
Variable all : list (string * CommentData).
Variable top : gset string.

Lemma with_depth_frame fuel id cd cd' :
  with_depth all top fuel id cd = Some cd' →
  cd' = set_depth cd (cd_depth cd').
Proof.
  unfold with_depth. case_bool_decide.
  - intros ?; simplify_eq. by rewrite set_depth_same.
  - destruct (depth_walk all fuel (cd_parent_id cd) 0); simpl; [|done].
    intros ?; by simplify_eq.
Qed.

Lemma with_depth_post fuel id cd cd' :
  with_depth all top fuel id cd = Some cd' → cd_post_id cd' = cd_post_id cd.
Proof. intros ->%with_depth_frame. done. Qed.

Lemma with_depth_id fuel id cd cd' :
  with_depth all top fuel id cd = Some cd' → cd_id cd' = cd_id cd.
Proof. intros ->%with_depth_frame. done. Qed.

Lemma retained_mono fuel fuel' id b :
  retained all top fuel id = Some b → fuel ≤ fuel' →
  retained all top fuel' id = Some b.
Proof.
  unfold retained. case_bool_decide; [done|]. apply is_in_user_chain_mono.
Qed.

Lemma with_depth_mono fuel fuel' id cd cd' :
  with_depth all top fuel id cd = Some cd' → fuel ≤ fuel' →
  with_depth all top fuel' id cd = Some cd'.
Proof.
  unfold with_depth. case_bool_decide; [done|].
  destruct (depth_walk all fuel _ 0) as [d|] eqn:Hd; simpl; [|done].
  intros ? Hle. by rewrite (depth_walk_mono _ _ _ _ _ _ Hd Hle).
Qed.

(** The loop is a selection followed by a grouping. *)
Lemma second_pass_selected limit fuel items acc :
  second_pass all top limit fuel items acc =
  match selected all top limit fuel items with
  | Done records => Done (grouped records acc)
  | RecursionError => RecursionError
  | Unfinished => Unfinished
  end.
Proof.
  revert acc. induction items as [|[id cd] items IH]; intros acc; [done|].
  simpl. destruct (retained all top limit id) as [[|]|]; [|by rewrite IH|done].
  destruct (with_depth all top fuel id cd) as [cd'|] eqn:Hd; [|done].
  rewrite IH. destruct (selected all top limit fuel items); [|done..].
  simpl. by rewrite (with_depth_post _ _ _ _ Hd).
Qed.

(** A loop that has ended ends the same way with more steps for the depth
    walk. *)
Lemma selected_mono limit fuel fuel' items r :
  selected all top limit fuel items = r → r ≠ Unfinished → fuel ≤ fuel' →
  selected all top limit fuel' items = r.
Proof.
  intros Hsel Hr Hle. revert r Hsel Hr.
  induction items as [|[id cd] items IH]; intros r; [done|]. simpl.
  destruct (retained all top limit id) as [[|]|]; [|by apply IH|done].
  destruct (with_depth all top fuel id cd) as [cd'|] eqn:Hd;
    [|by intros <-].
  rewrite (with_depth_mono _ _ _ _ _ Hd Hle).
  destruct (selected all top limit fuel items) as [rest| |] eqn:Hrest;
    intros <- Hr; [|by rewrite (IH RecursionError)|done].
  by rewrite (IH (Done rest)).
Qed.

Lemma selected_elem limit fuel items records cd' :
  selected all top limit fuel items = Done records → cd' ∈ records →
  ∃ id cd, (id, cd) ∈ items ∧ retained all top limit id = Some true ∧
           with_depth all top fuel id cd = Some cd'.
Proof.
  revert records. induction items as [|[id cd] items IH]; intros records; simpl.
  - intros ? Hin; simplify_eq. by apply elem_of_nil in Hin.
  - destruct (retained all top limit id) as [[|]|] eqn:Hr; [| |done].
    + destruct (with_depth all top fuel id cd) as [cd0|] eqn:Hd; [|done].
      destruct (selected all top limit fuel items) as [rest| |]; [|done..].
      intros Heq Hin. simplify_eq.
      apply elem_of_cons in Hin as [->|Hin].
      * exists id, cd. split_and!; try done. left.
      * destruct (IH _ eq_refl Hin) as (id' & cd1 & ? & ? & ?).
        exists id', cd1. split_and!; try done. by right.
    + intros Hsel Hin. destruct (IH _ Hsel Hin) as (id' & cd1 & ? & ? & ?).
      exists id', cd1. split_and!; try done. by right.
Qed.

Lemma selected_complete limit fuel items records id cd :
  selected all top limit fuel items = Done records → (id, cd) ∈ items →
  retained all top limit id = Some true →
  ∃ cd', cd' ∈ records ∧ with_depth all top fuel id cd = Some cd'.
Proof.
  revert records. induction items as [|[id0 cd0] items IH]; intros records; simpl.
  - intros _ Hin. by apply elem_of_nil in Hin.
  - intros Hsel [Heq|Hin]%elem_of_cons Hr.
    + simplify_eq. rewrite Hr in Hsel.
      destruct (with_depth all top fuel id0 cd0) as [cd'|]; [|done].
      destruct (selected all top limit fuel items); simplify_eq/=.
      exists cd'. split; [left | done].
    + destruct (retained all top limit id0) as [[|]|]; [| |done].
      * destruct (with_depth all top fuel id0 cd0); [|done].
        destruct (selected all top limit fuel items) as [rest| |]; simplify_eq/=.
        destruct (IH _ eq_refl Hin Hr) as (cd' & ? & ?).
        exists cd'. split; [by right | done].
      * by apply IH.
Qed.

Lemma selected_elem_retained limit fuel items records id cd :
  selected all top limit fuel items = Done records → (id, cd) ∈ items →
  is_Some (retained all top limit id).
Proof.
  revert records. induction items as [|[id0 cd0] items IH]; intros records; simpl.
  - intros _ Hin. by apply elem_of_nil in Hin.
  - intros Hsel [Heq|Hin]%elem_of_cons.
    + simplify_eq. destruct (retained all top limit id0); [eauto|done].
    + destruct (retained all top limit id0) as [[|]|]; [| |done].
      * destruct (with_depth all top fuel id0 cd0); [|done].
        destruct (selected all top limit fuel items) as [rest| |]; simplify_eq/=.
        by eapply IH.
      * by eapply IH.
Qed.

Lemma selected_sublist limit fuel items records :
  selected all top limit fuel items = Done records →
  sublist (cd_id <$> records) (cd_id ∘ snd <$> items).
Proof.
  revert records. induction items as [|[id cd] items IH]; intros records; simpl.
  - intros ?; simplify_eq. constructor.
  - destruct (retained all top limit id) as [[|]|]; [| |done].
    + destruct (with_depth all top fuel id cd) as [cd'|] eqn:Hd; [|done].
      destruct (selected all top limit fuel items) as [rest| |]; [|done..].
      intros ?; simplify_eq. rewrite fmap_cons, (with_depth_id _ _ _ _ Hd).
      apply sublist_skip. by apply IH.
    + intros Hsel. apply sublist_cons. by apply IH.
Qed.

(** The loop raises only where a membership test does. *)
Lemma selected_raises limit fuel items :
  selected all top limit fuel items = RecursionError →
  ∃ id cd, (id, cd) ∈ items ∧ retained all top limit id = None.
Proof.
  induction items as [|[id cd] items IH]; simpl; [done|].
  destruct (retained all top limit id) as [[|]|] eqn:Hr.
  - destruct (with_depth all top fuel id cd); [|done].
    destruct (selected all top limit fuel items); try done.
    intros _. destruct IH as (id' & cd' & ? & ?); [done|].
    exists id', cd'. split; [by right | done].
  - intros Hsel. destruct (IH Hsel) as (id' & cd' & ? & ?).
    exists id', cd'. split; [by right | done].
  - intros _. exists id, cd. split; [left | done].
Qed.

(** The loop ends when every depth walk it starts finishes, and it runs to
    its end when in addition no membership test raises. *)
Lemma selected_ends limit fuel items :
  (∀ id cd, (id, cd) ∈ items →
     retained all top limit id = Some true →
     is_Some (with_depth all top fuel id cd)) →
  selected all top limit fuel items ≠ Unfinished.
Proof.
  induction items as [|[id cd] items IH]; intros Hall; simpl; [done|].
  assert (IH' : selected all top limit fuel items ≠ Unfinished)
    by (apply IH; intros; apply Hall; [by right | done]).
  destruct (retained all top limit id) as [[|]|] eqn:Hb; [|done..].
  destruct (Hall id cd) as [cd' ->]; [left | done |].
  by destruct (selected all top limit fuel items).
Qed.

Lemma selected_total limit fuel items :
  (∀ id cd, (id, cd) ∈ items →
     is_Some (retained all top limit id) ∧
     (retained all top limit id = Some true →
      is_Some (with_depth all top fuel id cd))) →
  ∃ records, selected all top limit fuel items = Done records.
Proof.
  induction items as [|[id cd] items IH]; intros Hall; simpl; [eauto|].
  destruct (Hall id cd) as [[b Hb] Hd]; [left|].
  destruct IH as [rest Hrest]; [intros; apply Hall; by right|].
  rewrite Hb, Hrest. destruct b; [|eauto].
  destruct (Hd Hb) as [cd' ->]. eauto.
Qed.
End second_pass_facts.

(** ** The whole function *)

Section run_facts.
Variable iso : Z → string.
Variable stream : list Comment.
Variable post_ids : list string.

Local Abbreviation index := (first_pass iso stream post_ids).1.
Local Abbreviation tops := (first_pass iso stream post_ids).2.

Lemma run_eq limit fuel :
  get_user_comments_on_posts iso limit fuel stream post_ids =
  match selected index tops limit fuel index with
  | Done records => Some (sort_groups (grouped records []))
  | RecursionError => Some []
  | Unfinished => None
  end.
Proof.
  unfold get_user_comments_on_posts.
  destruct (first_pass iso stream post_ids) as [all top]. simpl.
  rewrite second_pass_selected. by destruct (selected all top limit fuel all).
Qed.

(** A returning run returns the groups of the records it has appended. *)
Lemma run_selected limit fuel out :
  get_user_comments_on_posts iso limit fuel stream post_ids = Some out →
  ∃ records, selection index tops limit fuel index records ∧
             out = sort_groups (grouped records []).
Proof.
  rewrite run_eq. unfold selection.
  destruct (selected index tops limit fuel index) as [records| |]; [| |done].
  - intros ?; simplify_eq. eauto.
  - intros ?; simplify_eq. exists []. eauto.
Qed.

Lemma run_mono limit fuel fuel' out :
  get_user_comments_on_posts iso limit fuel stream post_ids = Some out →
  fuel ≤ fuel' →
  get_user_comments_on_posts iso limit fuel' stream post_ids = Some out.
Proof.
  rewrite !run_eq. intros Hrun Hle.
  destruct (selected index tops limit fuel index) as [records| |] eqn:Hsel;
    [| |done].
  - by rewrite (selected_mono _ _ _ _ _ _ _ Hsel).
  - by rewrite (selected_mono _ _ _ _ _ _ _ Hsel).
Qed.

Lemma output_group records post_id comments :
  (post_id, comments) ∈ sort_groups (grouped records []) ↔
  comments = list_sort (on_post post_id records) ∧
  on_post post_id records ≠ [].
Proof.
  rewrite sort_groups_elem. split.
  - intros (l & [-> Hne]%grouped_elem & ->). done.
  - intros [-> Hne]. exists (on_post post_id records).
    split; [by apply grouped_elem | done].
Qed.

Lemma in_output_selected records cd :
  in_output (sort_groups (grouped records [])) cd ↔ cd ∈ records.
Proof.
  unfold in_output. split.
  - intros (post_id & comments & [-> _]%output_group & Hin).
    rewrite list_sort_perm in Hin. unfold on_post in Hin.
    by apply list_elem_of_filter in Hin as [_ ?].
  - intros Hin. exists (cd_post_id cd), (list_sort (on_post (cd_post_id cd) records)).
    assert (Hcd : cd ∈ on_post (cd_post_id cd) records)
      by (by apply list_elem_of_filter).
    split.
    + apply output_group. split; [done|].
      intros Hnil. rewrite Hnil in Hcd. by apply elem_of_nil in Hcd.
    + by rewrite list_sort_perm.
Qed.

(** The entries of the index. *)
Lemma index_entry id cd :
  (id, cd) ∈ index ↔ dict_get id index = Some cd.
Proof.
  destruct (first_pass_invariant iso post_ids stream) as [Hnd _ _ _ _ _].
  split; [by apply dict_get_elem | apply dict_get_Some_elem].
Qed.

Lemma index_origin id cd :
  (id, cd) ∈ index →
  ∃ c, c ∈ stream ∧ on_target post_ids c ∧ c_id c = id ∧
       cd = comment_data_of iso c.
Proof.
  intros Hin%index_entry.
  by destruct (first_pass_invariant iso post_ids stream) as [_ Horig _ _ _ _];
    apply Horig.
Qed.

Lemma index_ids : cd_id ∘ snd <$> index = index.*1.
Proof.
  apply list_fmap_ext. intros i [id cd] Hi. simpl.
  apply list_elem_of_lookup_2 in Hi.
  by destruct (index_origin _ _ Hi) as (c & _ & _ & <- & ->).
Qed.

(** Every selected record is an indexed one, with its depth assigned. *)
Lemma selected_origin limit fuel records cd' :
  selection index tops limit fuel index records → cd' ∈ records →
  ∃ c, c ∈ stream ∧ on_target post_ids c ∧
       dict_get (c_id c) index = Some (comment_data_of iso c) ∧
       retained index tops limit (c_id c) = Some true ∧
       with_depth index tops fuel (c_id c) (comment_data_of iso c) = Some cd'.
Proof.
  intros [Hsel|[_ ->]] Hin; [|by apply elem_of_nil in Hin].
  destruct (selected_elem _ _ _ _ _ _ _ Hsel Hin) as (id & cd & Hitem & Hr & Hd).
  destruct (index_origin _ _ Hitem) as (c & Hc & Ht & <- & ->).
  exists c. split_and!; try done. by apply index_entry.
Qed.

Lemma retained_spec limit id b :
  retained index tops limit id = Some b →
  b = true ↔ ∃ n, reaches index tops id n.
Proof.
  unfold retained. case_bool_decide as Htop.
  - intros ?; simplify_eq. split; [|done].
    intros _. exists 0. by constructor.
  - apply is_in_user_chain_spec.
Qed.

(** The membership test stays within the recursion limit on a stream that is
    shorter than the limit. *)
Lemma retained_returns limit id :
  length stream < limit → is_Some (retained index tops limit id).
Proof.
  intros Hlimit. unfold retained. case_bool_decide; [eauto|].
  apply is_in_user_chain_returns.
  pose proof (first_pass_length iso post_ids stream). lia.
Qed.

Lemma retained_reaches limit id :
  retained index tops limit id = Some true →
  ∃ n, n ≤ length stream ∧ reaches index tops id n.
Proof.
  unfold retained. case_bool_decide as Htop.
  - intros _. exists 0. split; [lia | by constructor].
  - intros (n & Hn & Hreach)%is_in_user_chain_true_bound.
    pose proof (first_pass_length iso post_ids stream).
    exists n. split; [lia | done].
Qed.

(** The depth walk is only started on a record whose chain reaches a
    top-level id, and it returns from there. *)
Lemma with_depth_returns limit fuel id cd :
  consistent index tops →
  retained index tops limit id = Some true →
  dict_get id index = Some cd →
  length stream < fuel →
  is_Some (with_depth index tops fuel id cd).
Proof.
  intros Hcons Hr Hg Hfuel.
  destruct (retained_reaches _ _ Hr) as (n & Hn & Hreach).
  unfold with_depth. case_bool_decide as Htop; [eauto|].
  destruct (depth_walk_reaches _ _ fuel id cd n 0%Z Hcons Hreach Hg)
    as (k & -> & _); [lia|]. simpl. eauto.
Qed.

Lemma run_ends limit fuel :
  unique_ids stream → length stream < fuel →
  selected index tops limit fuel index ≠ Unfinished.
Proof.
  intros Hu Hfuel. apply selected_ends.
  intros id cd Hitem Hr. eapply with_depth_returns; [|done| |done].
  - by apply first_pass_consistent.
  - by apply index_entry.
Qed.

Lemma run_total limit fuel :
  unique_ids stream → length stream < fuel →
  is_Some (get_user_comments_on_posts iso limit fuel stream post_ids).
Proof.
  intros Hu Hfuel. rewrite run_eq.
  pose proof (run_ends limit fuel Hu Hfuel).
  destruct (selected index tops limit fuel index); [eauto..|done].
Qed.

(** On a stream shorter than the recursion limit a returning run has run
    its loop to the end. *)
Lemma run_done limit fuel out :
  length stream < limit →
  get_user_comments_on_posts iso limit fuel stream post_ids = Some out →
  ∃ records, selected index tops limit fuel index = Done records ∧
             out = sort_groups (grouped records []).
Proof.
  intros Hlimit. rewrite run_eq.
  destruct (selected index tops limit fuel index) as [records| |] eqn:Hsel;
    [| |done].
  - intros ?; simplify_eq. eauto.
  - apply selected_raises in Hsel as (id & cd & _ & Hr).
    destruct (retained_returns limit id Hlimit) as [b Hb]. congruence.
Qed.

(** On a stream with unique ids, [reaches] on the index is [chain_hops] on
    the stream. *)
Lemma chain_hops_on_target c n :
  chain_hops stream post_ids c n → c ∈ stream ∧ on_target post_ids c.
Proof. by destruct 1. Qed.

Lemma reaches_chain_hops c n :
  unique_ids stream → c ∈ stream → on_target post_ids c →
  reaches index tops (c_id c) n ↔ chain_hops stream post_ids c n.
Proof.
  intros Hu Hc Ht.
  destruct (first_pass_invariant iso post_ids stream)
    as [_ Horig _ Htop Hrec _].
  split.
  - intros Hr. remember (c_id c) as id eqn:Hid.
    revert c Hc Ht Hid.
    induction Hr as [id Hin|id cd n Hin Hg Hp Hm Hn IH]; intros c Hc Ht ->.
    + apply Htop in Hin as (c' & Hc' & _ & Heq & Hp).
      rewrite (unique_ids_inj _ _ _ Hu Hc' Hc Heq) in Hp. by constructor.
    + rewrite (first_pass_lookup iso post_ids stream c Hu Hc Ht) in Hg.
      simplify_eq. simpl in *.
      apply dict_mem_true, dict_get_is_Some in Hm as [pd Hpd].
      destruct (Horig _ _ Hpd) as (p & Hp' & Htp & Hidp & _).
      apply (hops_reply _ _ c p); try done.
      * unfold top_level. by rewrite Hp.
      * by apply IH.
  - induction 1 as [c Hc' Ht' Hp|c p n Hc' Ht' Hp Hpin Htp Hid _ IH].
    + constructor. apply Htop. eauto.
    + pose proof (first_pass_lookup iso post_ids stream c Hu Hc' Ht') as Hg.
      pose proof (first_pass_lookup iso post_ids stream p Hu Hpin Htp) as Hgp.
      eapply reaches_step; [|exact Hg| | |].
      * intros (c' & Hc'' & _ & Heq & Hp')%Htop.
        by rewrite (unique_ids_inj _ _ _ Hu Hc'' Hc' Heq) in Hp'.
      * simpl. by apply not_true_is_false.
      * simpl. rewrite <- Hid. apply dict_mem_true, dict_get_is_Some. eauto.
      * simpl. rewrite <- Hid. by apply IH.
Qed.

(** Which comments appear in the output. *)
Lemma appears_chain limit fuel out c :
  unique_ids stream →
  get_user_comments_on_posts iso limit fuel stream post_ids = Some out →
  c ∈ stream →
  appears out (c_id c) → user_chain stream post_ids c.
Proof.
  intros Hu (records & Hsel & ->)%run_selected Hc.
  intros (cd' & Hin%in_output_selected & Hid).
  destruct (selected_origin _ _ _ _ Hsel Hin) as (c' & Hc' & Ht & Hg & Hr & Hd).
  apply with_depth_id in Hd. simpl in Hd.
  assert (c' = c) as -> by (apply (unique_ids_inj stream); congruence).
  apply retained_spec in Hr as [Hr _]. destruct (Hr eq_refl) as [n Hn].
  exists n. by apply reaches_chain_hops.
Qed.

Lemma appears_user_chain limit fuel out c :
  unique_ids stream → length stream < limit →
  get_user_comments_on_posts iso limit fuel stream post_ids = Some out →
  c ∈ stream →
  appears out (c_id c) ↔ user_chain stream post_ids c.
Proof.
  intros Hu Hlimit Hrun Hc. split; [by eapply appears_chain|].
  apply run_done in Hrun as (records & Hsel & ->); [|done].
  intros [n Hn].
  destruct (chain_hops_on_target _ _ Hn) as [_ Ht].
  apply reaches_chain_hops in Hn; [|done..].
  pose proof (first_pass_lookup iso post_ids stream c Hu Hc Ht) as Hg.
  assert (Hr : retained index tops limit (c_id c) = Some true).
  { destruct (selected_elem_retained _ _ _ _ _ _ _ _ Hsel
                (proj2 (index_entry _ _) Hg)) as [b Hb].
    rewrite Hb. f_equal. eapply retained_spec; eauto. }
  destruct (selected_complete _ _ _ _ _ _ _ _ Hsel
              (proj2 (index_entry _ _) Hg) Hr) as (cd' & Hin & Hd).
  exists cd'. split; [by apply in_output_selected|].
  by apply with_depth_id in Hd.
Qed.
End run_facts.

(** The selected records carry pairwise different ids. *)
Lemma selected_NoDup iso stream post_ids limit fuel records :
  selection (first_pass iso stream post_ids).1 (first_pass iso stream post_ids).2
    limit fuel (first_pass iso stream post_ids).1 records →
  NoDup (cd_id <$> records) ∧ sublist (cd_id <$> records) (c_id <$> stream).
Proof.
  intros [Hsub%selected_sublist|[_ ->]];
    [|split; [constructor | apply sublist_nil_l]].
  rewrite index_ids in Hsub.
  destruct (first_pass_invariant iso post_ids stream) as [Hnd _ _ _ _ Hord].
  split; [eapply sublist_NoDup; [exact Hnd | exact Hsub] | by etrans].
Qed.

Lemma NoDup_concat_groups (out : list (string * list CommentData)) :
  NoDup out.*1 →
  (∀ post_id l, (post_id, l) ∈ out → NoDup (cd_id <$> l)) →
  (∀ p1 l1 p2 l2 x y, (p1, l1) ∈ out → (p2, l2) ∈ out →
     x ∈ l1 → y ∈ l2 → cd_id x = cd_id y → p1 = p2) →
  NoDup (cd_id <$> concat out.*2).
Proof.
  induction out as [|[k l] out IH]; [constructor|].
  rewrite !fmap_cons. simpl. intros [Hk Hnd]%NoDup_cons Hgroup Hcross.
  rewrite fmap_app. apply NoDup_app. split_and!.
  - apply (Hgroup k). left.
  - intros i (x & -> & Hx)%list_elem_of_fmap (y & Heq & Hy)%list_elem_of_fmap.
    apply elem_of_concat in Hy as (l2 & Hy & Hl2).
    apply list_elem_of_fmap in Hl2 as ([p2 l2'] & ? & Hin2). simplify_eq/=.
    apply Hk. rewrite (Hcross k l p2 l2' x y); try done.
    + change p2 with ((p2, l2').1). by apply list_elem_of_fmap_2.
    + left.
    + by right.
  - apply IH; [done| |].
    + intros p l0 Hin. apply (Hgroup p). by right.
    + intros p1 l1 p2 l2 x y H1 H2. apply Hcross; by right.
Qed.

(** ** Depths of the selected records *)

Lemma depth_walk_comment_ref all fuel p d r :
  startswith p "t1_" = true → depth_walk all fuel p d = Some r → (d + 1 ≤ r)%Z.
Proof.
  intros Hp. destruct fuel as [|fuel]; [done|]. simpl. rewrite Hp.
  destruct (dict_get _ all); [|intros; simplify_eq; lia].
  apply depth_walk_ge.
Qed.

Section depth_assignment.
Variable iso : Z → string.
Variable stream : list Comment.
Variable post_ids : list string.
Hypothesis Hunique : unique_ids stream.

Local Abbreviation index := (first_pass iso stream post_ids).1.
Local Abbreviation tops := (first_pass iso stream post_ids).2.

Lemma tops_top_level c :
  c ∈ stream → on_target post_ids c → c_id c ∈ tops ↔ top_level c.
Proof.
  intros Hc Ht.
  destruct (first_pass_invariant iso post_ids stream) as [_ _ _ Htop _ _].
  rewrite Htop. split.
  - intros (c' & Hc' & _ & Heq & Hp).
    by rewrite <- (unique_ids_inj _ _ _ Hunique Hc' Hc Heq).
  - intros Hp. eauto.
Qed.

Lemma tagged_parents_index : tagged_parents stream → tagged_index index.
Proof.
  intros Htag id cd Hg.
  destruct (index_origin iso stream post_ids id cd) as (c & Hc & _ & _ & ->);
    [by apply index_entry|].
  exact (Htag c Hc).
Qed.

(** The depth of a selected record, against its chain. *)
Lemma selected_depth limit fuel records cd :
  selection index tops limit fuel index records → cd ∈ records →
  ∃ c n, c ∈ stream ∧ on_target post_ids c ∧
    cd = set_depth (comment_data_of iso c) (cd_depth cd) ∧
    chain_hops stream post_ids c n ∧
    (0 ≤ cd_depth cd ≤ Z.of_nat n)%Z ∧
    (top_level c → cd_depth cd = 0%Z) ∧
    (comment_ref (c_parent_id c) → (1 ≤ cd_depth cd)%Z) ∧
    (tagged_parents stream → cd_depth cd = Z.of_nat n).
Proof.
  intros Hsel Hin.
  destruct (selected_origin _ _ _ _ _ _ _ Hsel Hin)
    as (c & Hc & Ht & Hg & Hr & Hd).
  pose proof (with_depth_frame _ _ _ _ _ _ Hd) as Hframe.
  unfold retained, with_depth in Hr, Hd.
  case_bool_decide as Htop.
  - simplify_eq. exists c, 0. split_and!; try done.
    + constructor; try done. by apply tops_top_level.
    + intros Href. apply tops_top_level in Htop; [|done..].
      apply startswith_t3_not_t1 in Htop. unfold comment_ref in Href. congruence.
  - apply is_in_user_chain_true in Hr as (n & _ & Hreach).
    destruct (depth_walk index fuel (cd_parent_id (comment_data_of iso c)) 0)
      as [d|] eqn:Hwalk; simpl in Hd; [|done].
    destruct (depth_walk_reaches _ _ (fuel + S n) _ _ n 0%Z
                (first_pass_consistent iso post_ids stream Hunique) Hreach Hg)
      as (k & Hk & Hle & Htag); [lia|].
    rewrite (depth_walk_mono _ _ (fuel + S n) _ _ _ Hwalk) in Hk by lia.
    simplify_eq. simpl in *.
    assert (Hhops : chain_hops stream post_ids c n)
      by (by apply (reaches_chain_hops iso stream post_ids c n)).
    exists c, n. split; [done|]. split; [done|]. split; [done|].
    split; [done|]. split; [lia|]. split; [|split].
    + intros Hp. by apply tops_top_level in Hp.
    + intros Href. apply (depth_walk_comment_ref _ _ _ _ _ Href) in Hwalk. lia.
    + intros Htagged. rewrite (Htag (tagged_parents_index Htagged)). lia.
Qed.

(** The parent of a selected reply is selected, one level above it. *)
Lemma selected_parent limit fuel records cd :
  selection index tops limit fuel index records → cd ∈ records →
  comment_ref (cd_parent_id cd) →
  ∃ pd, pd ∈ records ∧ cd_id pd = slice_from 3 (cd_parent_id cd) ∧
        cd_depth cd = (cd_depth pd + 1)%Z.
Proof.
  intros Hsel Hin Href.
  destruct (selected_origin _ _ _ _ _ _ _ Hsel Hin)
    as (c & Hc & Ht & Hg & Hr & Hd).
  destruct Hsel as [Hsel|[_ ->]]; [|by apply elem_of_nil in Hin].
  pose proof (with_depth_frame _ _ _ _ _ _ Hd) as Hframe.
  rewrite Hframe in Href. simpl in Href. unfold comment_ref in Href.
  assert (Htop : c_id c ∉ tops).
  { intros Htop%tops_top_level; [|done..].
    apply startswith_t3_not_t1 in Htop. congruence. }
  unfold retained in Hr. rewrite bool_decide_eq_false_2 in Hr by done.
  apply is_in_user_chain_true in Hr as (n & _ & Hreach).
  inversion Hreach as [id Hid|id cd0 n' _ Hg0 Hp3 Hm Hreach'];
    [exfalso; by apply Htop|]. subst.
  rewrite Hg in Hg0. simplify_eq. simpl in *.
  unfold parent_comment_id_of in Hm, Hreach'. rewrite Href in Hm, Hreach'.
  apply dict_mem_true, dict_get_is_Some in Hm as [pd0 Hpd0].
  assert (Hitem : (slice_from 3 (c_parent_id c), pd0) ∈ index)
    by (by apply index_entry).
  assert (Hrp : retained index tops limit (slice_from 3 (c_parent_id c)) = Some true).
  { destruct (selected_elem_retained _ _ _ _ _ _ _ _ Hsel Hitem) as [b Hb].
    rewrite Hb. f_equal. eapply retained_spec; eauto. }
  destruct (selected_complete _ _ _ _ _ _ _ _ Hsel Hitem Hrp) as (pd & Hpd & Hdp).
  destruct (index_origin _ _ _ _ _ Hitem) as (p & Hp & Htp & Hidp & ->).
  exists pd. split; [done|]. rewrite Hframe. simpl.
  split; [by rewrite (with_depth_id _ _ _ _ _ _ Hdp)|].
  unfold with_depth in Hd, Hdp. simpl in Hd, Hdp.
  rewrite bool_decide_eq_false_2 in Hd by done.
  destruct (depth_walk index fuel (c_parent_id c) 0) as [d|] eqn:Hwalk;
    simpl in Hd; [|done].
  simplify_eq. simpl.
  destruct fuel as [|fuel]; [done|]. simpl in Hwalk.
  rewrite Href, Hpd0 in Hwalk. simpl in Hwalk.
  case_bool_decide as Hptop.
  - simplify_eq. simpl.
    rewrite <- Hidp in Hptop. apply tops_top_level in Hptop; [|done..].
    destruct fuel as [|fuel]; [done|]. simpl in Hwalk.
    rewrite (startswith_t3_not_t1 _ Hptop) in Hwalk. by simplify_eq.
  - change 1%Z with (0 + 1)%Z in Hwalk. rewrite depth_walk_shift in Hwalk.
    destruct (depth_walk index fuel (c_parent_id p) 0) as [d'|] eqn:Hwalk';
      simpl in Hwalk; [|done].
    rewrite (depth_walk_mono _ _ (S fuel) _ _ _ Hwalk') in Hdp by lia.
    simpl in Hdp. by simplify_eq.
Qed.
End depth_assignment.

(** ** Scenario 2 of the specification *)

Section scenario2.
Variable iso : Z → string.
Variables c1 c2 : Comment.
Variable p1 : string.
Hypothesis Hpost1 : c_submission_id c1 = p1.
Hypothesis Hpost2 : c_submission_id c2 = p1.
Hypothesis Hparent1 : c_parent_id c1 = "t3_" +:+ p1.
Hypothesis Hparent2 : c_parent_id c2 = "t1_" +:+ c_id c1.
Hypothesis Hids : c_id c1 ≠ c_id c2.

Local Abbreviation index12 :=
  [(c_id c1, comment_data_of iso c1); (c_id c2, comment_data_of iso c2)].
Local Abbreviation index21 :=
  [(c_id c2, comment_data_of iso c2); (c_id c1, comment_data_of iso c1)].

Lemma scenario2_tags :
  startswith (c_parent_id c1) "t3_" = true ∧
  startswith (c_parent_id c1) "t1_" = false ∧
  startswith (c_parent_id c2) "t1_" = true ∧
  startswith (c_parent_id c2) "t3_" = false ∧
  slice_from 3 (c_parent_id c2) = c_id c1.
Proof.
  assert (H13 : startswith (c_parent_id c1) "t3_" = true)
    by (rewrite Hparent1; apply startswith_app).
  assert (H21 : startswith (c_parent_id c2) "t1_" = true)
    by (rewrite Hparent2; apply startswith_app).
  split_and!; [done | by apply startswith_t3_not_t1 | done
              | by apply startswith_t1_not_t3 | by rewrite Hparent2].
Qed.

Lemma scenario2_first_pass_12 :
  first_pass iso [c1; c2] [p1] = (index12, {[c_id c1]} ∪ ∅).
Proof.
  destruct scenario2_tags as (H13 & _ & _ & H23 & _).
  unfold first_pass. simpl. unfold first_pass_step.
  rewrite Hpost1, Hpost2, !bool_decide_eq_true_2 by set_solver.
  rewrite H13, H23. simpl. by rewrite decide_False.
Qed.

Lemma scenario2_first_pass_21 :
  first_pass iso [c2; c1] [p1] = (index21, {[c_id c1]} ∪ ∅).
Proof.
  destruct scenario2_tags as (H13 & _ & _ & H23 & _).
  unfold first_pass. simpl. unfold first_pass_step.
  rewrite Hpost1, Hpost2, !bool_decide_eq_true_2 by set_solver.
  rewrite H13, H23. simpl. by rewrite decide_False.
Qed.

Lemma scenario2_lookups all :
  all = index12 ∨ all = index21 →
  dict_get (c_id c1) all = Some (comment_data_of iso c1) ∧
  dict_get (c_id c2) all = Some (comment_data_of iso c2).
Proof.
  intros [-> | ->]; cbn [dict_get];
    rewrite ?(decide_True (P := c_id c1 = c_id c1)),
            ?(decide_True (P := c_id c2 = c_id c2)),
            ?(decide_False (P := c_id c1 = c_id c2)),
            ?(decide_False (P := c_id c2 = c_id c1)) by congruence; done.
Qed.

(** The reply is a chain member, found in two calls of the test. *)
Lemma scenario2_member all fuel :
  dict_get (c_id c1) all = Some (comment_data_of iso c1) →
  dict_get (c_id c2) all = Some (comment_data_of iso c2) →
  is_in_user_chain all ({[c_id c1]} ∪ ∅) (S (S fuel)) (c_id c2) ∅ = Some true.
Proof.
  intros Hg1 Hg2. destruct scenario2_tags as (_ & _ & H21 & H23 & Hslice).
  cbn [is_in_user_chain].
  rewrite (bool_decide_eq_false_2 (c_id c2 ∈ ∅)) by set_solver.
  rewrite (bool_decide_eq_false_2 (c_id c2 ∈ _)) by set_solver.
  rewrite Hg2. cbn [cd_parent_id comment_data_of]. rewrite H23.
  unfold parent_comment_id_of, dict_mem. rewrite H21, Hslice, Hg1.
  rewrite (bool_decide_eq_false_2 (c_id c1 ∈ _)) by set_solver.
  by rewrite (bool_decide_eq_true_2 (c_id c1 ∈ _)) by set_solver.
Qed.

(** The walk from the reply counts one hop. *)
Lemma scenario2_walk all fuel :
  dict_get (c_id c1) all = Some (comment_data_of iso c1) →
  depth_walk all (S (S fuel)) (c_parent_id c2) 0 = Some 1%Z.
Proof.
  intros Hg1. destruct scenario2_tags as (_ & H11 & H21 & _ & Hslice).
  cbn [depth_walk]. rewrite H21, Hslice, Hg1.
  cbn [cd_parent_id comment_data_of]. by rewrite H11.
Qed.

Lemma scenario2_output limit fuel stream :
  stream = [c1; c2] ∧ (c_created_utc c1 ≤ c_created_utc c2)%Z ∨
  stream = [c2; c1] ∧ (c_created_utc c1 < c_created_utc c2)%Z →
  2 ≤ limit → 2 ≤ fuel →
  get_user_comments_on_posts iso limit fuel stream [p1] =
    Some [(p1, [comment_data_of iso c1;
                set_depth (comment_data_of iso c2) 1])].
Proof.
  intros Hstream Hlimit Hfuel.
  destruct limit as [|[|limit]]; [lia..|].
  destruct fuel as [|[|fuel]]; [lia..|].
  unfold get_user_comments_on_posts.
  destruct Hstream as [[-> Hle] | [-> Hlt]].
  - rewrite scenario2_first_pass_12.
    cbn [second_pass]. unfold retained, with_depth.
    rewrite (bool_decide_eq_true_2 (c_id c1 ∈ _)) by set_solver.
    rewrite (bool_decide_eq_false_2 (c_id c2 ∈ _)) by set_solver.
    destruct (scenario2_lookups index12) as [Hg1 Hg2]; [by left|].
    rewrite scenario2_member, scenario2_walk by done.
    cbn [mbind option_bind cd_post_id comment_data_of set_depth].
    rewrite Hpost1, Hpost2. unfold dict_append. cbn [dict_get dict_set].
    rewrite (decide_True (P := p1 = p1)) by done.
    cbn [dict_set]. rewrite (decide_True (P := p1 = p1)) by done.
    cbn. rewrite bool_decide_eq_true_2 by lia. done.
  - rewrite scenario2_first_pass_21.
    cbn [second_pass]. unfold retained, with_depth.
    rewrite (bool_decide_eq_true_2 (c_id c1 ∈ _)) by set_solver.
    rewrite (bool_decide_eq_false_2 (c_id c2 ∈ _)) by set_solver.
    destruct (scenario2_lookups index21) as [Hg1 Hg2]; [by right|].
    rewrite scenario2_member, scenario2_walk by done.
    cbn [mbind option_bind cd_post_id comment_data_of set_depth].
    rewrite Hpost1, Hpost2. unfold dict_append. cbn [dict_get dict_set].
    rewrite (decide_True (P := p1 = p1)) by done.
    cbn [dict_set]. rewrite (decide_True (P := p1 = p1)) by done.
    cbn. rewrite bool_decide_eq_false_2 by lia. done.
Qed.
End scenario2.

(** ** Cycles *)

(** Two comments that are each other's parent are on no user chain. *)
Lemma cycle_not_chain stream post_ids a b n :
  unique_ids stream → a ∈ stream → b ∈ stream →
  ¬ top_level a → ¬ top_level b →
  parent_comment_id_of (c_parent_id a) = c_id b →
  parent_comment_id_of (c_parent_id b) = c_id a →
  ¬ chain_hops stream post_ids a n ∧ ¬ chain_hops stream post_ids b n.
Proof.
  intros Hu Ha Hb Hna Hnb Hab Hba.
  induction n as [|n [IHa IHb]].
  - split; intros Hn; by inversion Hn.
  - split; intros Hn;
      inversion Hn as [|c p n' _ _ _ Hp _ Hid Hn']; subst.
    + rewrite Hab in Hid.
      by rewrite (unique_ids_inj _ _ _ Hu Hp Hb Hid) in Hn'.
    + rewrite Hba in Hid.
      by rewrite (unique_ids_inj _ _ _ Hu Hp Ha Hid) in Hn'.
Qed.

(** ** Duplicated ids *)

(** On the stream [duplicated] the index keeps the second record of [X],
    whose parent is [Y], while [X] stays in the set of top-level ids: the
    depth walk started from [Y] alternates between the two forever. *)
Lemma duplicated_index :
  (first_pass iso0 duplicated ["P1"]).1 =
  [ ("X", comment_data_of iso0 (mk_comment "X" "t1_Y" "P1" 20));
    ("Y", comment_data_of iso0 (mk_comment "Y" "t1_X" "P1" 10)) ].
Proof. vm_compute. reflexivity. Qed.

Lemma duplicated_walk fuel d :
  depth_walk (first_pass iso0 duplicated ["P1"]).1 fuel "t1_X" d = None ∧
  depth_walk (first_pass iso0 duplicated ["P1"]).1 fuel "t1_Y" d = None.
Proof.
  rewrite duplicated_index. revert d.
  induction fuel as [|fuel IH]; intros d; [done|].
  split; cbn [depth_walk];
    change (startswith "t1_X" "t1_") with true;
    change (startswith "t1_Y" "t1_") with true;
    change (slice_from 3 "t1_X") with "X";
    change (slice_from 3 "t1_Y") with "Y";
    cbn -[depth_walk]; apply IH.
Qed.

Lemma duplicated_member fuel b :
  is_in_user_chain (first_pass iso0 duplicated ["P1"]).1
    (first_pass iso0 duplicated ["P1"]).2 fuel "Y" ∅ = Some b → b = true.
Proof.
  intros Hrun. apply (is_in_user_chain_spec _ _ _ _ _ Hrun).
  exists 1.
  eapply (reaches_step _ _ "Y"
            (comment_data_of iso0 (mk_comment "Y" "t1_X" "P1" 10)) 0).
  - by_evaluation.
  - rewrite duplicated_index. vm_compute. reflexivity.
  - vm_compute. reflexivity.
  - rewrite duplicated_index. vm_compute. reflexivity.
  - apply reaches_top. by_evaluation.
Qed.

(** ** The scenarios of the specification, evaluated *)

(** Scenario 1: nothing in, nothing out. *)
Example scenario1_run limit fuel :
  get_user_comments_on_posts iso0 limit fuel [] [] = Some [].
Proof. reflexivity. Qed.

(** Scenario 2, newest comment first. *)
Example scenario2_run :
  get_user_comments_on_posts iso0 1000 3 scenario2 ["P1"] =
  Some [("P1", [comment_data_of iso0 (mk_comment "C1" "t3_P1" "P1" 10);
                set_depth (comment_data_of iso0
                             (mk_comment "C2" "t1_C1" "P1" 20)) 1])].
Proof. vm_compute. reflexivity. Qed.

(** Scenario 3: a reply to somebody else's comment. *)
Example scenario3_run :
  get_user_comments_on_posts iso0 1000 2 [mk_comment "C3" "t1_other" "P1" 10] ["P1"]
  = Some [].
Proof. vm_compute. reflexivity. Qed.

(** Scenario 4: two top-level comments on one post. *)
Example scenario4_run :
  get_user_comments_on_posts iso0 1000 3
    [mk_comment "C5" "t3_P1" "P1" 20; mk_comment "C4" "t3_P1" "P1" 10] ["P1"]
  = Some [("P1", [comment_data_of iso0 (mk_comment "C4" "t3_P1" "P1" 10);
                  comment_data_of iso0 (mk_comment "C5" "t3_P1" "P1" 20)])].
Proof. vm_compute. reflexivity. Qed.

(** The sample stream [mixed]: the two-cycle, the self-parent, the dangling
    reply and the comment on [P9] are left out. *)
Example mixed_run :
  (cd_id <$> mixed_P1, cd_depth <$> mixed_P1) = (["R"; "M"; "N"], [0; 1; 2]%Z) ∧
  (cd_id <$> mixed_P2, cd_depth <$> mixed_P2) = (["T1"; "T2"], [0; 0]%Z) ∧
  mixed_output = [("P1", mixed_P1); ("P2", mixed_P2)].
Proof. vm_compute. done. Qed.

(** A parent reference without a tag is followed by the membership test
    (line 160) but not by the depth walk (line 175): the reply is kept at
    depth 0. *)
Example untagged_parent_run :
  get_user_comments_on_posts iso0 1000 3 untagged ["P1"]
  = Some [("P1", [comment_data_of iso0 (mk_comment "R" "t3_P1" "P1" 10);
                  comment_data_of iso0 (mk_comment "U" "R" "P1" 20)])].
Proof. vm_compute. reflexivity. Qed.

(** ** Chain membership in the words of the specification *)

Lemma elem_of_on_target_posts post_ids stream c :
  c ∈ on_target_posts post_ids stream ↔ c ∈ stream ∧ on_target post_ids c.
Proof.
  unfold on_target_posts, on_target. rewrite list_elem_of_filter. tauto.
Qed.

Lemma parent_comment_id_of_ref parent_id :
  comment_ref parent_id →
  parent_comment_id_of parent_id = slice_from 3 parent_id.
Proof. unfold comment_ref, parent_comment_id_of. by intros ->. Qed.

Lemma spec_hops_chain_hops stream post_ids c n :
  spec_hops (on_target_posts post_ids stream) c n →
  chain_hops stream post_ids c n.
Proof.
  induction 1 as [c Hc Htop|c p n Hc Href Hp Hid _ IH];
    apply elem_of_on_target_posts in Hc as [Hc Ht].
  - by constructor.
  - apply elem_of_on_target_posts in Hp as [Hp Htp].
    apply (hops_reply _ _ c p); try done.
    + unfold top_level. by rewrite (startswith_t1_not_t3 _ Href).
    + by rewrite parent_comment_id_of_ref.
Qed.

Lemma chain_hops_spec_hops stream post_ids c n :
  tagged_parents stream →
  chain_hops stream post_ids c n →
  spec_hops (on_target_posts post_ids stream) c n.
Proof.
  intros Htag. induction 1 as [c Hc Ht Htop|c p n Hc Ht Hnot Hp Htp Hid _ IH].
  - constructor; [by apply elem_of_on_target_posts | done].
  - destruct (Htag c Hc) as [?|Href]; [done|].
    apply (spec_hops_reply _ c p); try done.
    + by apply elem_of_on_target_posts.
    + by apply elem_of_on_target_posts.
    + by rewrite <- parent_comment_id_of_ref.
Qed.

Lemma tagged_parents_Forall stream :
  Forall (λ c, top_level c ∨ comment_ref (c_parent_id c)) stream →
  tagged_parents stream.
Proof. intros Hall c Hc. by apply (proj1 (Forall_forall _ _) Hall). Qed.

Lemma mixed_tagged : tagged_parents mixed.
Proof.
  apply tagged_parents_Forall. unfold top_level, comment_ref. by_evaluation.
Qed.

(** ** A chain of replies longer than the recursion limit *)

Lemma reply_id_inj : Inj (=) (=) reply_id.
Proof.
  intros i j Heq. unfold reply_id in Heq.
  apply String.app_inj in Heq. by apply pretty_nat_inj in Heq.
Qed.

Lemma reply_c_id n : c_id (reply n) = reply_id n.
Proof. by destruct n. Qed.

Lemma reply_on_target n : on_target ["P1"] (reply n).
Proof. unfold on_target. destruct n; simpl; set_solver. Qed.

Lemma elem_of_reply_chain n c :
  c ∈ reply_chain n ↔ ∃ j, j ≤ n ∧ c = reply j.
Proof.
  induction n as [|n IH]; cbn [reply_chain].
  - rewrite list_elem_of_singleton. split.
    + intros ->. exists 0. split; [lia | done].
    + intros (j & Hj & ->). by replace j with 0 by lia.
  - rewrite elem_of_cons, IH. split.
    + intros [->|(j & Hj & ->)]; [exists (S n) | exists j]; split; (lia || done).
    + intros (j & Hj & ->).
      destruct (decide (j = S n)) as [->|Hne]; [by left|].
      right. exists j. split; [lia | done].
Qed.

Lemma reply_chain_root n : reply 0 ∈ reply_chain n.
Proof. apply elem_of_reply_chain. exists 0. split; [lia | done]. Qed.

Lemma reply_chain_length n : length (reply_chain n) = S n.
Proof. induction n as [|n IH]; [done|]. cbn [reply_chain length]. by rewrite IH. Qed.

Lemma reply_chain_unique n : unique_ids (reply_chain n).
Proof.
  unfold unique_ids. induction n as [|n IH]; cbn [reply_chain].
  - rewrite fmap_cons. apply NoDup_singleton.
  - rewrite fmap_cons. apply NoDup_cons. split; [|done].
    intros (c & Hid & (j & Hj & ->)%elem_of_reply_chain)%list_elem_of_fmap.
    rewrite !reply_c_id in Hid. apply reply_id_inj in Hid. lia.
Qed.

(** The head of the index is the first comment on a target post. *)
Lemma first_pass_keeps_head iso post_ids stream k v all top :
  ∃ v' all' top',
    foldl (first_pass_step iso post_ids) ((k, v) :: all, top) stream
    = ((k, v') :: all', top').
Proof.
  revert v all top. induction stream as [|c stream IH]; intros v all top.
  - by exists v, all, top.
  - cbn [foldl]. unfold first_pass_step at 2.
    case_bool_decide; [|apply IH].
    cbn [dict_set]. destruct (decide (c_id c = k)) as [->|Hne];
      destruct (startswith (c_parent_id c) "t3_"); apply IH.
Qed.

Lemma first_pass_head iso post_ids c stream :
  on_target post_ids c →
  ∃ cd rest, (first_pass iso (c :: stream) post_ids).1 = (c_id c, cd) :: rest.
Proof.
  intros Ht. unfold first_pass. cbn [foldl]. unfold first_pass_step at 2.
  rewrite bool_decide_eq_true_2 by done. cbn [dict_set].
  destruct (startswith (c_parent_id c) "t3_");
    match goal with
    | |- context [foldl _ ((?k, ?v) :: ?all, ?top) stream] =>
        destruct (first_pass_keeps_head iso post_ids stream k v all top)
          as (v' & all' & top' & ->)
    end; by exists v', all'.
Qed.

Section reply_chain_facts.
Variable iso : Z → string.
Variable n : nat.

Local Abbreviation index := (first_pass iso (reply_chain n) ["P1"]).1.
Local Abbreviation tops := (first_pass iso (reply_chain n) ["P1"]).2.

Lemma reply_chain_lookup j :
  j ≤ n → dict_get (reply_id j) index = Some (comment_data_of iso (reply j)).
Proof.
  intros Hj. rewrite <- reply_c_id.
  apply first_pass_lookup;
    [apply reply_chain_unique | | apply reply_on_target].
  apply elem_of_reply_chain. eauto.
Qed.

Lemma reply_chain_tops j : j ≤ n → reply_id (S j) ∉ tops.
Proof.
  intros Hj Hin.
  destruct (first_pass_invariant iso ["P1"] (reply_chain n))
    as [_ _ _ Htop _ _].
  apply Htop in Hin as (c & (i & Hi & ->)%elem_of_reply_chain & _ & Hid & Hp).
  rewrite reply_c_id in Hid. apply reply_id_inj in Hid. subst i.
  unfold top_level in Hp. cbn [reply c_parent_id mk_comment] in Hp.
  by rewrite (startswith_t1_not_t3 _ (startswith_app "t1_" _)) in Hp.
Qed.

(** The test started on the reply [j] with no more than [j] frames raises:
    every frame but the last calls the test on the reply before. *)
Lemma reply_chain_deep frames j visited :
  frames ≤ j → j ≤ n →
  (∀ i, i ≤ j → reply_id i ∉ visited) →
  is_in_user_chain index tops frames (reply_id j) visited = None.
Proof.
  revert j visited.
  induction frames as [|frames IH]; intros j visited Hframes Hj Hvis; [done|].
  destruct j as [|j]; [lia|]. cbn [is_in_user_chain].
  rewrite (bool_decide_eq_false_2 (reply_id (S j) ∈ visited)) by (by apply Hvis).
  rewrite (bool_decide_eq_false_2 (reply_id (S j) ∈ tops))
    by (apply reply_chain_tops; lia).
  rewrite reply_chain_lookup by done.
  cbn [reply comment_data_of cd_parent_id c_parent_id mk_comment].
  rewrite (startswith_t1_not_t3 _ (startswith_app "t1_" _)).
  unfold parent_comment_id_of. rewrite startswith_app.
  change (slice_from 3 ("t1_" +:+ reply_id j)) with (reply_id j).
  unfold dict_mem. rewrite reply_chain_lookup by lia.
  apply IH; [lia..|].
  intros i Hi [Heq%elem_of_singleton|Hin]%elem_of_union.
  - apply reply_id_inj in Heq. lia.
  - apply (Hvis i); [lia | done].
Qed.

(** With a recursion limit of [n] calls the run on the chain of [n] replies
    returns the empty mapping, whatever the steps it is given: the
    membership test of the newest reply, the first comment of the loop,
    raises, and the handler of lines 196-198 returns [{}]. *)
Lemma reply_chain_raises fuel :
  1 ≤ n →
  get_user_comments_on_posts iso n fuel (reply_chain n) ["P1"] = Some [].
Proof.
  intros Hn. rewrite run_eq.
  assert (Hr : retained index tops n (reply_id n) = None).
  { unfold retained. destruct n as [|n'] eqn:Heq; [lia|]. rewrite <- Heq.
    rewrite bool_decide_eq_false_2
      by (rewrite Heq at 1; apply reply_chain_tops; lia).
    apply reply_chain_deep; [lia..|]. set_solver. }
  destruct (first_pass_head iso ["P1"] (reply n)
              (match n with O => [] | S n' => reply_chain n' end))
    as (cd & rest & Hhead); [apply reply_on_target|].
  replace (reply n :: match n with O => [] | S n' => reply_chain n' end)
    with (reply_chain n) in Hhead by (by destruct n).
  rewrite reply_c_id in Hhead.
  replace (selected index tops n fuel index)
    with (selected index tops n fuel ((reply_id n, cd) :: rest))
    by (by rewrite <- Hhead).
  cbn [selected]. by rewrite Hr.
Qed.
End reply_chain_facts.

Lemma reply_chain_tagged n : tagged_parents (reply_chain n).
Proof.
  intros c (j & _ & ->)%elem_of_reply_chain. destruct j as [|j].
  - left. reflexivity.
  - right. apply startswith_app.
Qed.

(** Every comment of the chain of replies is a member of a user chain. *)
Lemma reply_chain_members n c :
  c ∈ reply_chain n → spec_member (reply_chain n) c.
Proof.
  intros (j & Hj & ->)%elem_of_reply_chain.
  induction j as [|j IH].
  - exists 0. constructor; [apply reply_chain_root | reflexivity].
  - destruct IH as [k Hk]; [lia|]. exists (S k).
    apply (spec_hops_reply _ (reply (S j)) (reply j)); [| | | |done].
    + apply elem_of_reply_chain. eauto.
    + apply startswith_app.
    + apply elem_of_reply_chain. exists j. split; [lia | done].
    + by rewrite reply_c_id.
Qed.

(** * The claims *)




(** C2 (as stated) fails, on three inputs.  On [repeated] the record of the
    reply [X] is in the output at depth 0, and its parent reference is not a
    submission reference.  On [untagged] the same holds of the record of
    [U].  On [reply_first], a top-level comment [C1] on [P1] and a reply [C2]
    to it that was created before it, the output lists [C2] before [C1]. *)
Lemma depth_zero_under_comment_parent :
  (get_user_comments_on_posts iso0 1000 3 repeated ["P1"]
     = Some [("P1", [repeated_X])] ∧
   cd_depth repeated_X = 0%Z ∧
   startswith (cd_parent_id repeated_X) "t3_" = false) ∧
  (get_user_comments_on_posts iso0 1000 3 untagged ["P1"]
     = Some [("P1", [comment_data_of iso0 (mk_comment "R" "t3_P1" "P1" 10);
                     comment_data_of iso0 (mk_comment "U" "R" "P1" 20)])] ∧
   cd_depth (comment_data_of iso0 (mk_comment "U" "R" "P1" 20)) = 0%Z ∧
   startswith (cd_parent_id (comment_data_of iso0 (mk_comment "U" "R" "P1" 20)))
     "t3_" = false) ∧
  (get_user_comments_on_posts iso0 1000 3 reply_first ["P1"]
     = Some [("P1", [set_depth (comment_data_of iso0
                                  (mk_comment "C2" "t1_C1" "P1" 10)) 1;
                     comment_data_of iso0 (mk_comment "C1" "t3_P1" "P1" 20)])]).
Proof. split_and!; vm_compute; reflexivity. Qed.

(** C2 (as amended). Depths: on every stream with unique ids whose parent
    references all carry the submission or the comment tag the
    reconstruction returns, and every record of its output has a depth that
    is not negative, that is zero exactly when its parent reference is a
    submission reference, and that is the number of comment-to-comment hops
    from its comment to the top-level comment of its chain.  In particular,
    for a top-level comment [c1] on post [p1] and a reply [c2] to it that was
    not created before it (created after it, when the stream yields the
    reply first), with [p1] the only target and a recursion limit of at
    least two calls, the output is [c1] at depth 0 followed by [c2] at depth
    1, under [p1]. *)
Theorem depth_assignment iso limit fuel stream post_ids :
  unique_ids stream → tagged_parents stream → length stream < fuel →
  ∃ out, get_user_comments_on_posts iso limit fuel stream post_ids = Some out ∧
    (∀ cd, in_output out cd →
       (0 ≤ cd_depth cd)%Z ∧
       (cd_depth cd = 0%Z ↔ startswith (cd_parent_id cd) "t3_" = true) ∧
       ∃ c n, c ∈ stream ∧
              cd = set_depth (comment_data_of iso c) (cd_depth cd) ∧
              spec_hops (on_target_posts post_ids stream) c n ∧
              cd_depth cd = Z.of_nat n) ∧
    (∀ c1 c2 p1,
       stream = [c1; c2] ∧ (c_created_utc c1 ≤ c_created_utc c2)%Z ∨
       stream = [c2; c1] ∧ (c_created_utc c1 < c_created_utc c2)%Z →
       post_ids = [p1] →
       c_submission_id c1 = p1 → c_submission_id c2 = p1 →
       c_parent_id c1 = "t3_" +:+ p1 →
       c_parent_id c2 = "t1_" +:+ c_id c1 →
       2 ≤ limit →
       out = [(p1, [comment_data_of iso c1;
                    set_depth (comment_data_of iso c2) 1])]).
Proof.
  intros Hu Htag Hfuel.
  destruct (run_total iso stream post_ids limit fuel Hu Hfuel) as [out Hout].
  exists out. split; [done|]. split.
  - destruct (run_selected _ _ _ _ _ _ Hout) as (records & Hsel & ->).
    intros cd Hin%in_output_selected.
    destruct (selected_depth iso stream post_ids Hu limit fuel records cd Hsel Hin)
      as (c & n & Hc & Ht & Hframe & Hhops & Hrange & Htop & _ & Hn).
    specialize (Hn Htag).
    split; [lia|]. split.
    + split.
      * intros H0. assert (n = 0) as -> by lia.
        rewrite Hframe. simpl. by inversion Hhops.
      * intros Hp. apply Htop. by rewrite Hframe in Hp.
    + exists c, n. split_and!; try done. by apply chain_hops_spec_hops.
  - intros c1 c2 p1 Hstream -> Hs1 Hs2 Hp1 Hp2 Hlimit.
    assert (Hids : c_id c1 ≠ c_id c2).
    { unfold unique_ids in Hu.
      destruct Hstream as [[-> _] | [-> _]]; apply NoDup_cons in Hu as [Hu _];
        intros Heq; apply Hu; rewrite Heq; left. }
    assert (Hlen : 2 ≤ fuel)
      by (destruct Hstream as [[-> _] | [-> _]]; simpl in Hfuel; lia).
    pose proof (scenario2_output iso c1 c2 p1 Hs1 Hs2 Hp1 Hp2 Hids
                  limit fuel stream Hstream Hlimit Hlen) as Hscen.
    congruence.
Qed.

Lemma depth_assignment_witness :
  unique_ids scenario2 ∧ tagged_parents scenario2 ∧ length scenario2 < 3 ∧
  get_user_comments_on_posts iso0 1000 3 scenario2 ["P1"] =
    Some [("P1", [comment_data_of iso0 (mk_comment "C1" "t3_P1" "P1" 10);
                  set_depth (comment_data_of iso0
                               (mk_comment "C2" "t1_C1" "P1" 20)) 1])].
Proof.
  assert (Hu : unique_ids scenario2) by by_evaluation.
  assert (Htag : tagged_parents scenario2).
  { intros c Hc. unfold top_level, comment_ref.
    apply elem_of_cons in Hc as [->|Hc]; [right; reflexivity|].
    apply elem_of_cons in Hc as [->|Hc]; [left; reflexivity|].
    by apply elem_of_nil in Hc. }
  assert (Hlen : length scenario2 < 3) by by_evaluation.
  split; [exact Hu|]. split; [exact Htag|]. split; [exact Hlen|].
  destruct (depth_assignment iso0 1000 3 scenario2 ["P1"] Hu Htag Hlen)
    as (out & Hout & _ & Hscen).
  rewrite Hout. f_equal.
  apply (Hscen (mk_comment "C1" "t3_P1" "P1" 10)
               (mk_comment "C2" "t1_C1" "P1" 20) "P1");
    [right; split; reflexivity | reflexivity.. | lia].
Defined.






(** C5. Target posts only: whenever the reconstruction returns, every record
    of the output is listed under its own post id, and that post id is one of
    the target post ids, whatever posts the comments of the stream are on;
    the comments on other posts are ignored, in that the run on the stream
    without them returns the same output. *)
Theorem output_on_target_posts iso limit fuel stream post_ids out post_id
    comments cd :
  get_user_comments_on_posts iso limit fuel stream post_ids = Some out →
  (post_id, comments) ∈ out → cd ∈ comments →
  cd_post_id cd = post_id ∧ post_id ∈ post_ids ∧
  get_user_comments_on_posts iso limit fuel
    (filter (λ c, c_submission_id c ∈ post_ids) stream) post_ids = Some out.
Proof.
  intros Hrun Hgroup Hin. split_and!.
  - apply run_selected in Hrun as (records & Hsel & ->).
    apply output_group in Hgroup as [-> _].
    rewrite list_sort_perm in Hin.
    by apply list_elem_of_filter in Hin as [<- Hin].
  - apply run_selected in Hrun as (records & Hsel & ->).
    apply output_group in Hgroup as [-> _].
    rewrite list_sort_perm in Hin.
    apply list_elem_of_filter in Hin as [<- Hin].
    destruct (selected_origin _ _ _ _ _ _ _ Hsel Hin)
      as (c & _ & Ht & _ & _ & Hd).
    apply with_depth_post in Hd. by rewrite Hd.
  - rewrite <- Hrun. unfold get_user_comments_on_posts.
    by rewrite first_pass_filter.
Qed.

Lemma output_on_target_posts_witness :
  get_user_comments_on_posts iso0 1000 11 mixed mixed_targets = Some mixed_output ∧
  ("P1", mixed_P1) ∈ mixed_output ∧ mixed_N ∈ mixed_P1 ∧
  cd_post_id mixed_N = "P1" ∧ "P1" ∈ mixed_targets ∧
  get_user_comments_on_posts iso0 1000 11
    (filter (λ c, c_submission_id c ∈ mixed_targets) mixed) mixed_targets
    = Some mixed_output.
Proof.
  assert (Hrun : get_user_comments_on_posts iso0 1000 11 mixed mixed_targets
                 = Some mixed_output) by (vm_compute; reflexivity).
  assert (Hin : ("P1", mixed_P1) ∈ mixed_output) by by_evaluation.
  assert (Hcd : mixed_N ∈ mixed_P1) by by_evaluation.
  split; [exact Hrun|]. split; [exact Hin|]. split; [exact Hcd|].
  exact (output_on_target_posts iso0 1000 11 mixed mixed_targets mixed_output
           "P1" mixed_P1 mixed_N Hrun Hin Hcd).
Defined.




(** C8. Frame: whenever the reconstruction returns, every record of the
    output is the record built from a comment of the stream on a target post
    and stored in the index under its id, with nothing but [depth] replaced:
    id, body, score, creation time, permalink, parent reference, submitter
    flag and post id are those of the indexed record. *)
Theorem payload_fields_preserved iso limit fuel stream post_ids out cd :
  get_user_comments_on_posts iso limit fuel stream post_ids = Some out →
  in_output out cd →
  ∃ c, c ∈ stream ∧ on_target post_ids c ∧
    dict_get (cd_id cd) (first_pass iso stream post_ids).1
      = Some (comment_data_of iso c) ∧
    cd = set_depth (comment_data_of iso c) (cd_depth cd) ∧
    cd_id cd = c_id c ∧ cd_body cd = c_body c ∧ cd_score cd = c_score c ∧
    cd_created_utc cd = c_created_utc c ∧
    cd_permalink cd = "https://reddit.com" +:+ c_permalink c ∧
    cd_parent_id cd = c_parent_id c ∧
    cd_is_submitter cd = c_is_submitter c ∧
    cd_post_id cd = c_submission_id c.
Proof.
  intros (records & Hsel & ->)%run_selected Hin%in_output_selected.
  destruct (selected_origin _ _ _ _ _ _ _ Hsel Hin)
    as (c & Hc & Ht & Hg & _ & Hd).
  apply with_depth_frame in Hd.
  exists c. rewrite Hd at 1 2 3 4 5 6 7 8 9 10 11. simpl.
  split_and!; done.
Qed.

Lemma payload_fields_preserved_witness :
  get_user_comments_on_posts iso0 1000 11 mixed mixed_targets = Some mixed_output ∧
  in_output mixed_output mixed_N ∧
  ∃ c, c ∈ mixed ∧ on_target mixed_targets c ∧
    dict_get (cd_id mixed_N) (first_pass iso0 mixed mixed_targets).1
      = Some (comment_data_of iso0 c) ∧
    mixed_N = set_depth (comment_data_of iso0 c) (cd_depth mixed_N) ∧
    cd_id mixed_N = c_id c ∧ cd_body mixed_N = c_body c ∧
    cd_score mixed_N = c_score c ∧
    cd_created_utc mixed_N = c_created_utc c ∧
    cd_permalink mixed_N = "https://reddit.com" +:+ c_permalink c ∧
    cd_parent_id mixed_N = c_parent_id c ∧
    cd_is_submitter mixed_N = c_is_submitter c ∧
    cd_post_id mixed_N = c_submission_id c.
Proof.
  assert (Hrun : get_user_comments_on_posts iso0 1000 11 mixed mixed_targets
                 = Some mixed_output) by (vm_compute; reflexivity).
  assert (Hin : in_output mixed_output mixed_N)
    by (exists "P1", mixed_P1; split; by_evaluation).
  split; [exact Hrun|]. split; [exact Hin|].
  exact (payload_fields_preserved iso0 1000 11 mixed mixed_targets mixed_output
           mixed_N Hrun Hin).
Defined.

(** C9 (as stated) fails: on [repeated], where the id [X] occurs twice, the
    output holds the record of the reply [X], whose parent reference is a
    comment reference to [gone], at depth 0, and no record of a comment
    [gone]. *)
Lemma parent_missing_from_output :
  get_user_comments_on_posts iso0 1000 3 repeated ["P1"]
    = Some [("P1", [repeated_X])] ∧
  in_output [("P1", [repeated_X])] repeated_X ∧
  comment_ref (cd_parent_id repeated_X) ∧
  ¬ ∃ pd, in_output [("P1", [repeated_X])] pd ∧
          cd_id pd = slice_from 3 (cd_parent_id repeated_X).
Proof.
  split_and!.
  - vm_compute. reflexivity.
  - exists "P1", [repeated_X]. split; left.
  - reflexivity.
  - intros (pd & (post_id & comments & Hgroup & Hpd) & Hid).
    apply elem_of_cons in Hgroup as [Heq|Hgroup];
      [|by apply elem_of_nil in Hgroup].
    simplify_eq.
    apply elem_of_cons in Hpd as [->|Hpd]; [|by apply elem_of_nil in Hpd].
    by vm_compute in Hid.
Qed.

(** C9 (as amended). Parent closure: on every stream with unique ids the
    reconstruction returns, and every record of its output whose parent
    reference is a comment reference has the record of that parent comment
    in the output too, with a depth one less than its own. *)
Theorem parent_closure iso limit fuel stream post_ids :
  unique_ids stream → length stream < fuel →
  ∃ out, get_user_comments_on_posts iso limit fuel stream post_ids = Some out ∧
    ∀ cd, in_output out cd → comment_ref (cd_parent_id cd) →
      ∃ pd, in_output out pd ∧
            cd_id pd = slice_from 3 (cd_parent_id cd) ∧
            cd_depth cd = (cd_depth pd + 1)%Z.
Proof.
  intros Hu Hfuel.
  destruct (run_total iso stream post_ids limit fuel Hu Hfuel) as [out Hout].
  exists out. split; [done|].
  apply run_selected in Hout as (records & Hsel & ->).
  intros cd Hin%in_output_selected Href.
  destruct (selected_parent iso stream post_ids Hu limit fuel records cd
              Hsel Hin Href) as (pd & Hpd & Hid & Hdepth).
  exists pd. split; [by apply in_output_selected | done].
Qed.

Lemma parent_closure_witness :
  unique_ids mixed ∧ length mixed < 11 ∧
  ∃ out, get_user_comments_on_posts iso0 1000 11 mixed mixed_targets = Some out ∧
    ∀ cd, in_output out cd → comment_ref (cd_parent_id cd) →
      ∃ pd, in_output out pd ∧
            cd_id pd = slice_from 3 (cd_parent_id cd) ∧
            cd_depth cd = (cd_depth pd + 1)%Z.
Proof.
  split; [by_evaluation|]. split; [by_evaluation|].
  apply (parent_closure iso0 1000 11 mixed mixed_targets); by_evaluation.
Defined.

(** C10. Shape of the output: whenever the reconstruction returns, no key of
    the mapping maps to an empty list, the keys are pairwise different, and
    no comment id occurs twice in the lists of the mapping taken together. *)
Theorem output_shape iso limit fuel stream post_ids out :
  get_user_comments_on_posts iso limit fuel stream post_ids = Some out →
  (∀ post_id comments, (post_id, comments) ∈ out → comments ≠ []) ∧
  NoDup out.*1 ∧
  NoDup (cd_id <$> concat out.*2).
Proof.
  intros (records & Hsel & ->)%run_selected.
  destruct (selected_NoDup _ _ _ _ _ _ Hsel) as [Hnd _].
  assert (Hkeys : NoDup (sort_groups (grouped records [])).*1).
  { rewrite sort_groups_keys. apply grouped_NoDup. constructor. }
  split_and!; [|done|].
  - intros post_id comments [-> Hne]%output_group Hnil. apply Hne.
    apply Permutation_nil_r. by rewrite <- Hnil, list_sort_perm.
  - apply NoDup_concat_groups; [done| |].
    + intros post_id l [-> _]%output_group. rewrite list_sort_perm.
      eapply sublist_NoDup; [exact Hnd|]. apply fmap_sublist, sublist_filter.
    + intros p1 l1 p2 l2 x y [-> _]%output_group [-> _]%output_group.
      rewrite !list_sort_perm. unfold on_post.
      intros [<- Hx]%list_elem_of_filter [<- Hy]%list_elem_of_filter Heq.
      by rewrite (NoDup_fmap_elem_inj cd_id records x y Hnd Hx Hy Heq).
Qed.

Lemma output_shape_witness :
  get_user_comments_on_posts iso0 1000 11 mixed mixed_targets = Some mixed_output ∧
  (∀ post_id comments, (post_id, comments) ∈ mixed_output → comments ≠ []) ∧
  NoDup mixed_output.*1 ∧
  NoDup (cd_id <$> concat mixed_output.*2).
Proof.
  assert (Hrun : get_user_comments_on_posts iso0 1000 11 mixed mixed_targets
                 = Some mixed_output) by (vm_compute; reflexivity).
  split; [exact Hrun|].
  exact (output_shape iso0 1000 11 mixed mixed_targets mixed_output Hrun).
Defined.

(** * Further properties: the rest of the scraper *)

(** ** [get_user_posts_in_subreddit] *)

Lemma truthy_true s : truthy s = true ↔ s ≠ "".
Proof. by destruct s. Qed.

Lemma posts_step_spec iso lower name posts submission :
  posts_step iso lower name posts submission =
  posts ++ (post_data_of iso <$> filter (text_post_in lower name) [submission]).
Proof.
  unfold posts_step. rewrite filter_cons, filter_nil.
  case_bool_decide as Hsub.
  - destruct (s_is_self submission) eqn:Hself; simpl.
    + destruct (truthy (s_selftext submission)) eqn:Htext.
      * rewrite decide_True; [done|].
        split_and!; [done..|by apply truthy_true].
      * rewrite decide_False; [by rewrite app_nil_r|].
        intros (_ & _ & Hne%truthy_true). congruence.
    + rewrite decide_False; [by rewrite app_nil_r|].
      intros (_ & ? & _). congruence.
  - rewrite decide_False; [by rewrite app_nil_r|].
    by intros (? & _ & _).
Qed.

Lemma get_user_posts_from iso lower name posts submissions :
  foldl (posts_step iso lower name) posts submissions =
  posts ++ (post_data_of iso <$> filter (text_post_in lower name) submissions).
Proof.
  revert posts. induction submissions as [|x submissions IH]; intros posts.
  - by rewrite app_nil_r.
  - cbn [foldl]. rewrite IH, posts_step_spec, <- app_assoc, <- fmap_app.
    do 2 f_equal. by rewrite filter_cons, !filter_nil, filter_cons;
      destruct (decide (text_post_in lower name x)).
Qed.

Lemma posts_are_the_text_posts_eq iso lower submissions subreddit_name :
  get_user_posts_in_subreddit iso lower submissions subreddit_name =
  post_data_of iso <$> filter (text_post_in lower subreddit_name) submissions.
Proof. unfold get_user_posts_in_subreddit. by rewrite get_user_posts_from. Qed.

(** X1. The posts returned are exactly the submissions of the stream that
    are self posts with a non-empty text in the subreddit asked for (compared
    in lower case), in the order of the stream, each made into its
    [post_data]. *)
Theorem posts_are_the_text_posts iso lower submissions subreddit_name :
  get_user_posts_in_subreddit iso lower submissions subreddit_name =
  post_data_of iso <$> filter (text_post_in lower subreddit_name) submissions.
Proof. unfold get_user_posts_in_subreddit. by rewrite get_user_posts_from. Qed.

(** ** What a run of [get_user_comments_on_posts] returns, for its callers *)

Lemma run_group_facts iso limit fuel stream post_ids out post_id comments :
  get_user_comments_on_posts iso limit fuel stream post_ids = Some out →
  (post_id, comments) ∈ out →
  comments ≠ [] ∧ post_id ∈ post_ids ∧
  ∀ cd, cd ∈ comments →
    cd_post_id cd = post_id ∧
    ∃ c, c ∈ stream ∧ on_target post_ids c ∧ cd_id cd = c_id c.
Proof.
  intros (records & Hsel & ->)%run_selected [-> Hne]%output_group.
  assert (Hall : ∀ cd, cd ∈ list_sort (on_post post_id records) →
            cd_post_id cd = post_id ∧
            ∃ c, c ∈ stream ∧ on_target post_ids c ∧ cd_id cd = c_id c ∧
                 cd_post_id cd = c_submission_id c).
  { intros cd Hin. rewrite list_sort_perm in Hin.
    apply list_elem_of_filter in Hin as [Hpost Hin].
    split; [done|].
    destruct (selected_origin _ _ _ _ _ _ _ Hsel Hin) as (c & Hc & Ht & _ & _ & Hd).
    exists c. split_and!; [done..| |].
    - by apply with_depth_id in Hd.
    - by apply with_depth_post in Hd. }
  split_and!.
  - intros Hnil. apply Hne, Permutation_nil_r. by rewrite <- Hnil, list_sort_perm.
  - destruct (list_sort (on_post post_id records)) as [|cd l] eqn:Hl.
    + exfalso. apply Hne, Permutation_nil_r. by rewrite <- Hl, list_sort_perm.
    + destruct (Hall cd) as [Hpost (c & _ & Ht & _ & Hsub)]; [left|].
      unfold on_target in Ht. by rewrite <- Hpost, Hsub.
  - intros cd Hin. destruct (Hall cd Hin) as [Hpost (c & ? & ? & ? & _)]. eauto.
Qed.

Lemma run_NoDup iso limit fuel stream post_ids out :
  get_user_comments_on_posts iso limit fuel stream post_ids = Some out →
  NoDup out.*1 ∧ NoDup (cd_id <$> concat out.*2).
Proof.
  intros (records & Hsel & ->)%run_selected.
  destruct (selected_NoDup _ _ _ _ _ _ Hsel) as [Hnd _].
  assert (Hkeys : NoDup (sort_groups (grouped records [])).*1).
  { rewrite sort_groups_keys. apply grouped_NoDup. constructor. }
  split; [done|].
  apply NoDup_concat_groups; [done| |].
  - intros post_id l [-> _]%output_group. rewrite list_sort_perm.
    eapply sublist_NoDup; [exact Hnd|]. apply fmap_sublist, sublist_filter.
  - intros p1 l1 p2 l2 x y [-> _]%output_group [-> _]%output_group.
    rewrite !list_sort_perm. unfold on_post.
    intros [<- Hx]%list_elem_of_filter [<- Hy]%list_elem_of_filter Heq.
    by rewrite (NoDup_fmap_elem_inj cd_id records x y Hnd Hx Hy Heq).
Qed.

(** ** Sums of lengths *)

Lemma total_user_comments_length comments :
  total_user_comments comments = Z.of_nat (length (concat comments.*2)).
Proof.
  unfold total_user_comments. induction comments as [|[k l] comments IH]; [done|].
  rewrite !fmap_cons. cbn [foldr concat snd]. rewrite IH, length_app. lia.
Qed.

Lemma sum_one_key (ids : list string) (k0 : string) (a : Z) (g : string → Z) :
  NoDup ids → k0 ∈ ids → g k0 = 0%Z →
  foldr Z.add 0%Z ((λ k, if decide (k = k0) then a else g k) <$> ids) =
  (a + foldr Z.add 0%Z (g <$> ids))%Z.
Proof.
  intros Hnd Hin Hg0. induction ids as [|x ids IH]; [by apply elem_of_nil in Hin|].
  apply NoDup_cons in Hnd as [Hx Hnd]. rewrite !fmap_cons. cbn [foldr].
  destruct (decide (x = k0)) as [->|Hne].
  - rewrite Hg0.
    replace ((λ k, if decide (k = k0) then a else g k) <$> ids) with (g <$> ids);
      [lia|].
    apply list_fmap_ext. intros i k Hk. rewrite decide_False; [done|].
    intros ->. apply Hx. by eapply list_elem_of_lookup_2.
  - apply elem_of_cons in Hin as [->|Hin]; [done|].
    rewrite (IH Hnd Hin). lia.
Qed.

Lemma sum_over_keys (comments : list (string * list CommentData))
    (ids : list string) :
  NoDup ids → NoDup comments.*1 → (∀ k, k ∈ comments.*1 → k ∈ ids) →
  foldr Z.add 0%Z
    ((λ k, Z.of_nat (length (default [] (dict_get k comments)))) <$> ids)
  = total_user_comments comments.
Proof.
  intros Hids. unfold total_user_comments.
  induction comments as [|[k0 l0] comments IH]; intros Hnd Hsub.
  - clear. induction ids as [|x ids IHids]; [done|].
    rewrite fmap_cons. cbn [foldr]. rewrite IHids. done.
  - rewrite fmap_cons in Hnd. apply NoDup_cons in Hnd as [Hk0 Hnd].
    rewrite !fmap_cons. cbn [foldr snd].
    rewrite <- IH; [|done|intros k Hk; apply Hsub; rewrite fmap_cons; by right].
    rewrite <- (sum_one_key ids k0 (Z.of_nat (length l0))
                  (λ k, Z.of_nat (length (default [] (dict_get k comments)))));
      [|done| |].
    + f_equal. apply list_fmap_ext. intros i k _. cbn [dict_get].
      by destruct (decide (k = k0)).
    + apply Hsub. rewrite fmap_cons. left.
    + by rewrite (proj2 (dict_get_None k0 comments) Hk0).
Qed.

(** ** [scrape_user_activity] *)

Section scrape_facts.
Variable iso : Z → string.
Variable lower : string → string.
Variable now : string.
Variable limit : nat.
Variable fuel : nat.
Variable submissions : list Submission.
Variable stream : list Comment.
Variables username subreddit_name : string.

Local Abbreviation posts :=
  (get_user_posts_in_subreddit iso lower submissions subreddit_name).

Lemma scrape_inv result :
  scrape_user_activity iso lower now limit fuel submissions stream
    username subreddit_name = Some (Scraped result) →
  posts ≠ [] ∧
  get_user_comments_on_posts iso limit fuel stream (pd_id <$> posts)
    = Some (a_comments result) ∧
  a_posts result =
    (λ post, {| sp_post := post;
                sp_user_comments_count :=
                  user_comments_count (a_comments result) post |}) <$> posts ∧
  a_total_posts result = Z.of_nat (length posts) ∧
  a_total_user_comments result = total_user_comments (a_comments result) ∧
  a_username result = username ∧ a_subreddit result = subreddit_name ∧
  a_scraped_at result = now.
Proof.
  unfold scrape_user_activity.
  destruct posts as [|post rest] eqn:Hposts; [done|].
  destruct (get_user_comments_on_posts iso limit fuel stream (pd_id <$> post :: rest))
    as [comments|]; simpl; [|done].
  intros ?; simplify_eq. simpl. by rewrite length_fmap.
Qed.

Lemma scrape_post_ids result :
  scrape_user_activity iso lower now limit fuel submissions stream
    username subreddit_name = Some (Scraped result) →
  pd_id ∘ sp_post <$> a_posts result = pd_id <$> posts.
Proof.
  intros (_ & _ & -> & _)%scrape_inv.
  rewrite <- list_fmap_compose. by apply list_fmap_ext.
Qed.

Lemma posts_ids_NoDup :
  NoDup (s_id <$> submissions) → NoDup (pd_id <$> posts).
Proof.
  intros Hnd. rewrite posts_are_the_text_posts_eq, <- list_fmap_compose.
  eapply sublist_NoDup; [exact Hnd|].
  apply (fmap_sublist s_id), sublist_filter.
Qed.
End scrape_facts.

(** X2. The short result: [scrape_user_activity] returns the dictionary with
    no posts and no comments exactly when no submission of the stream is a
    text post in the subreddit, and it does so without looking at the
    comments, whatever they are and however many steps it is given. *)
Theorem scrape_without_posts iso lower now limit fuel submissions stream
    username subreddit_name :
  scrape_user_activity iso lower now limit fuel submissions stream
    username subreddit_name = Some NoPosts ↔
  filter (text_post_in lower subreddit_name) submissions = [].
Proof.
  unfold scrape_user_activity. rewrite posts_are_the_text_posts_eq.
  destruct (filter (text_post_in lower subreddit_name) submissions)
    as [|x l]; [done|].
  rewrite fmap_cons. split; [|done].
  destruct (get_user_comments_on_posts _ _ _ _); done.
Qed.

(** X3. Every group of comments of a result belongs to a returned post: its
    key is the id of one of the posts of the result, its list is not empty,
    and each of its records carries the key as its [post_id]. *)
Theorem scrape_groups_belong_to_posts iso lower now limit fuel submissions stream
    username subreddit_name result post_id comments :
  scrape_user_activity iso lower now limit fuel submissions stream
    username subreddit_name = Some (Scraped result) →
  (post_id, comments) ∈ a_comments result →
  comments ≠ [] ∧
  (∃ post, post ∈ a_posts result ∧ pd_id (sp_post post) = post_id) ∧
  ∀ cd, cd ∈ comments → cd_post_id cd = post_id.
Proof.
  intros Hscrape Hin.
  pose proof (scrape_post_ids _ _ _ _ _ _ _ _ _ _ Hscrape) as Hids.
  destruct (scrape_inv _ _ _ _ _ _ _ _ _ _ Hscrape) as (_ & Hrun & _).
  destruct (run_group_facts _ _ _ _ _ _ _ _ Hrun Hin) as (Hne & Hkey & Hall).
  split; [done|]. split.
  - rewrite <- Hids in Hkey.
    apply list_elem_of_fmap in Hkey as (post & -> & Hpost). eauto.
  - intros cd Hcd. by destruct (Hall cd Hcd).
Qed.

Lemma scrape_groups_belong_to_posts_witness :
  sample_scrape = Some (Scraped sample_activity) ∧
  ("P2", mixed_P2) ∈ a_comments sample_activity ∧
  mixed_P2 ≠ [] ∧
  (∃ post, post ∈ a_posts sample_activity ∧ pd_id (sp_post post) = "P2") ∧
  ∀ cd, cd ∈ mixed_P2 → cd_post_id cd = "P2".
Proof.
  assert (Hrun : sample_scrape = Some (Scraped sample_activity))
    by (vm_compute; reflexivity).
  assert (Hin : ("P2", mixed_P2) ∈ a_comments sample_activity) by by_evaluation.
  split; [exact Hrun|]. split; [exact Hin|].
  exact (scrape_groups_belong_to_posts iso0 lower0 "2026-01-01T00:00:00" 1000 11
           sample_submissions mixed "author" "hfy" sample_activity
           "P2" mixed_P2 Hrun Hin).
Defined.

(** X4. The [user_comments_count] of a post of a result is the length of the
    list the comments mapping holds under its id, and it is zero exactly
    when the mapping has no entry for the post. *)
Theorem scrape_count_of_post iso lower now limit fuel submissions stream
    username subreddit_name result post :
  scrape_user_activity iso lower now limit fuel submissions stream
    username subreddit_name = Some (Scraped result) →
  post ∈ a_posts result →
  (∀ comments, dict_get (pd_id (sp_post post)) (a_comments result)
                 = Some comments →
     sp_user_comments_count post = Z.of_nat (length comments)) ∧
  (sp_user_comments_count post = 0%Z ↔
   pd_id (sp_post post) ∉ (a_comments result).*1).
Proof.
  intros Hscrape Hpost.
  destruct (scrape_inv _ _ _ _ _ _ _ _ _ _ Hscrape) as (_ & Hrun & Hposts & _).
  rewrite Hposts in Hpost.
  apply list_elem_of_fmap in Hpost as (p & -> & _). simpl.
  unfold user_comments_count. split.
  - by intros comments ->.
  - rewrite <- dict_get_None.
    destruct (dict_get (pd_id p) (a_comments result)) as [l|] eqn:Hg; simpl.
    + split; [|done]. intros Hlen.
      apply dict_get_Some_elem in Hg.
      destruct (run_group_facts _ _ _ _ _ _ _ _ Hrun Hg) as (Hne & _).
      destruct l; [done | simpl in Hlen; lia].
    + done.
Qed.

Lemma scrape_count_of_post_witness :
  sample_scrape = Some (Scraped sample_activity) ∧
  sample_post2 ∈ a_posts sample_activity ∧
  (∀ comments, dict_get (pd_id (sp_post sample_post2))
                 (a_comments sample_activity) = Some comments →
     sp_user_comments_count sample_post2 = Z.of_nat (length comments)) ∧
  (sp_user_comments_count sample_post2 = 0%Z ↔
   pd_id (sp_post sample_post2) ∉ (a_comments sample_activity).*1).
Proof.
  assert (Hrun : sample_scrape = Some (Scraped sample_activity))
    by (vm_compute; reflexivity).
  assert (Hpost : sample_post2 ∈ a_posts sample_activity).
  { apply list_elem_of_In. right. left. vm_compute. reflexivity. }
  split; [exact Hrun|]. split; [exact Hpost|].
  exact (scrape_count_of_post iso0 lower0 "2026-01-01T00:00:00" 1000 11
           sample_submissions mixed "author" "hfy" sample_activity
           sample_post2 Hrun Hpost).
Defined.

(** X5. When the submissions of the stream have pairwise different ids,
    [total_user_comments] of a result is the sum of the
    [user_comments_count] of its posts. *)
Theorem scrape_total_is_sum_of_counts iso lower now limit fuel submissions stream
    username subreddit_name result :
  NoDup (s_id <$> submissions) →
  scrape_user_activity iso lower now limit fuel submissions stream
    username subreddit_name = Some (Scraped result) →
  a_total_user_comments result = sum_of_counts (a_posts result).
Proof.
  intros Hnd Hscrape.
  destruct (scrape_inv _ _ _ _ _ _ _ _ _ _ Hscrape)
    as (_ & Hrun & Hposts & _ & -> & _).
  unfold sum_of_counts. rewrite Hposts, <- list_fmap_compose.
  destruct (run_NoDup _ _ _ _ _ _ Hrun) as [Hkeys _].
  rewrite <- (sum_over_keys (a_comments result)
                (pd_id <$> get_user_posts_in_subreddit iso lower
                             submissions subreddit_name));
    [|by apply posts_ids_NoDup|done|].
  - by rewrite <- list_fmap_compose.
  - intros k (post_id & Heq & Hin)%list_elem_of_fmap.
    destruct post_id as [key l]. simpl in Heq. subst k.
    by destruct (run_group_facts _ _ _ _ _ _ _ _ Hrun Hin) as (_ & ? & _).
Qed.

Lemma scrape_total_is_sum_of_counts_witness :
  NoDup (s_id <$> sample_submissions) ∧
  sample_scrape = Some (Scraped sample_activity) ∧
  a_total_user_comments sample_activity = sum_of_counts (a_posts sample_activity).
Proof.
  assert (Hnd : NoDup (s_id <$> sample_submissions)) by by_evaluation.
  assert (Hrun : sample_scrape = Some (Scraped sample_activity))
    by (vm_compute; reflexivity).
  split; [exact Hnd|]. split; [exact Hrun|].
  exact (scrape_total_is_sum_of_counts iso0 lower0 "2026-01-01T00:00:00" 1000 11
           sample_submissions mixed "author" "hfy" sample_activity Hnd Hrun).
Defined.

(** X6. [total_user_comments] of a result is the number of records in its
    comments mapping, and it never exceeds the number of comments of the
    stream that are on one of the returned posts. *)
Theorem scrape_total_bounded iso lower now limit fuel submissions stream
    username subreddit_name result :
  scrape_user_activity iso lower now limit fuel submissions stream
    username subreddit_name = Some (Scraped result) →
  a_total_user_comments result
    = Z.of_nat (length (concat (a_comments result).*2)) ∧
  (a_total_user_comments result ≤
   Z.of_nat (length (filter (λ c, c_submission_id c
                                   ∈ (pd_id ∘ sp_post <$> a_posts result))
                       stream)))%Z.
Proof.
  intros Hscrape.
  pose proof (scrape_post_ids _ _ _ _ _ _ _ _ _ _ Hscrape) as Hids.
  destruct (scrape_inv _ _ _ _ _ _ _ _ _ _ Hscrape)
    as (_ & Hrun & _ & _ & -> & _).
  rewrite total_user_comments_length. split; [done|].
  apply inj_le. rewrite Hids.
  destruct (run_NoDup _ _ _ _ _ _ Hrun) as [_ Hnd].
  rewrite <- (length_fmap cd_id),
          <- (length_fmap c_id (filter _ stream)).
  apply submseteq_length, NoDup_submseteq; [done|].
  intros id (cd & -> & Hcd)%list_elem_of_fmap.
  apply elem_of_concat in Hcd as (l & Hcd & Hl).
  apply list_elem_of_fmap in Hl as ([key l'] & ? & Hin). simplify_eq/=.
  destruct (run_group_facts _ _ _ _ _ _ _ _ Hrun Hin) as (_ & _ & Hall).
  destruct (Hall cd Hcd) as (_ & c & Hc & Ht & ->).
  apply list_elem_of_fmap_2, list_elem_of_filter. done.
Qed.

Lemma scrape_total_bounded_witness :
  sample_scrape = Some (Scraped sample_activity) ∧
  a_total_user_comments sample_activity
    = Z.of_nat (length (concat (a_comments sample_activity).*2)) ∧
  (a_total_user_comments sample_activity ≤
   Z.of_nat (length (filter (λ c, c_submission_id c
                                   ∈ (pd_id ∘ sp_post <$> a_posts sample_activity))
                       mixed)))%Z.
Proof.
  assert (Hrun : sample_scrape = Some (Scraped sample_activity))
    by (vm_compute; reflexivity).
  split; [exact Hrun|].
  exact (scrape_total_bounded iso0 lower0 "2026-01-01T00:00:00" 1000 11
           sample_submissions mixed "author" "hfy" sample_activity Hrun).
Defined.

(** * Further properties: the importer *)

(** ** Runs of [INSERT OR REPLACE] *)

Section insert_rows_facts.
Context {V : Type}.
Implicit Types (rows : list (string * V)) (t : gmap string V).

(** On an existing table the statements leave, for every key, the row of the
    last statement with that key, and the old row for a key without one. *)
Lemma insert_rows_Some rows t :
  insert_or_replace_rows rows (Some t) =
  Some (Some (list_to_map (reverse rows) ∪ t)).
Proof.
  revert t. induction rows as [|[k v] rows IH]; intros t.
  - simpl. by rewrite (left_id_L ∅ (∪)).
  - cbn [insert_or_replace_rows]. rewrite IH, reverse_cons, list_to_map_app.
    do 2 f_equal. rewrite <- (assoc_L (∪)). f_equal.
    cbn [list_to_map foldr]. unfold uncurry, curry. simpl.
    by rewrite <- insert_union_l, (left_id_L ∅ (∪)).
Qed.

Lemma insert_rows_None rows table' :
  insert_or_replace_rows rows None = Some table' → rows = [] ∧ table' = None.
Proof. destruct rows as [|[k v] rows]; [|done]. intros ?; by simplify_eq/=. Qed.

Lemma insert_rows_result rows table table' :
  insert_or_replace_rows rows table = Some table' →
  table' = (λ t, list_to_map (reverse rows) ∪ t) <$> table ∧
  (table = None → rows = []).
Proof.
  destruct table as [t|].
  - rewrite insert_rows_Some. intros ?; simplify_eq. done.
  - intros [-> ->]%insert_rows_None. done.
Qed.

Lemma rows_lookup_other rows t k :
  k ∉ rows.*1 → (list_to_map (reverse rows) ∪ t) !! k = t !! k.
Proof.
  intros Hk. apply lookup_union_r, not_elem_of_list_to_map_1.
  by rewrite fmap_reverse, elem_of_reverse.
Qed.

Lemma rows_lookup_some rows t k :
  k ∈ rows.*1 →
  ∃ v, (k, v) ∈ rows ∧ (list_to_map (reverse rows) ∪ t) !! k = Some v.
Proof.
  intros Hk.
  destruct ((list_to_map (reverse rows) : gmap string V) !! k) as [v|] eqn:Hv.
  - exists v. split.
    + apply elem_of_list_to_map_2 in Hv. by apply elem_of_reverse.
    + by apply lookup_union_Some_l.
  - apply not_elem_of_list_to_map_2 in Hv.
    by rewrite fmap_reverse, elem_of_reverse in Hv.
Qed.

Lemma rows_lookup_NoDup rows t k v :
  NoDup rows.*1 → (k, v) ∈ rows →
  (list_to_map (reverse rows) ∪ t) !! k = Some v.
Proof.
  intros Hnd Hin. apply lookup_union_Some_l, elem_of_list_to_map_1.
  - by rewrite fmap_reverse, reverse_Permutation.
  - by apply elem_of_reverse.
Qed.

Lemma rows_twice rows t :
  list_to_map (reverse rows) ∪ (list_to_map (reverse rows) ∪ t)
  = list_to_map (reverse rows) ∪ t.
Proof. by rewrite (assoc_L (∪)), (idemp_L (∪)). Qed.

Lemma rows_size rows :
  NoDup rows.*1 →
  size (list_to_map (reverse rows) ∪ (∅ : gmap string V)) = length rows.
Proof.
  intros Hnd. rewrite (right_id_L ∅ (∪)), map_size_list_to_map, length_reverse;
    [done|].
  by rewrite fmap_reverse, reverse_Permutation.
Qed.
End insert_rows_facts.

(** ** The [users] table *)

Lemma foldr_max_ge (seq : Z) (ids : list Z) x :
  x ∈ ids → (x ≤ foldr Z.max seq ids)%Z.
Proof.
  induction ids as [|y ids IH]; [intros Hx; by apply elem_of_nil in Hx|].
  cbn [foldr]. intros [->|Hx]%elem_of_cons; [lia|].
  specialize (IH Hx). lia.
Qed.

Lemma largest_user_id_ge users name row :
  ut_rows users !! name = Some row → (u_id row ≤ largest_user_id users)%Z.
Proof.
  intros Hrow. apply foldr_max_ge.
  apply list_elem_of_fmap. exists row. split; [done|].
  apply list_elem_of_fmap. exists (name, row). split; [done|].
  by apply elem_of_map_to_list.
Qed.

Lemma foldr_max_le (seq : Z) (ids : list Z) x :
  (foldr Z.max seq ids ≤ x)%Z ↔ (seq ≤ x)%Z ∧ ∀ y, y ∈ ids → (y ≤ x)%Z.
Proof.
  induction ids as [|y ids IH]; cbn [foldr].
  - split; [|by intros [? _]].
    intros ?. split; [done|]. intros y Hy. by apply elem_of_nil in Hy.
  - rewrite Z.max_lub_iff, IH. split.
    + intros (Hy & Hs & Hall). split; [done|].
      intros z [->|Hz]%elem_of_cons; [done | by apply Hall].
    + intros (Hs & Hall). split_and!; [apply Hall; left | done |].
      intros z Hz. apply Hall. by right.
Qed.

Lemma largest_user_id_seq users : (ut_seq users ≤ largest_user_id users)%Z.
Proof.
  unfold largest_user_id.
  by destruct (proj1 (foldr_max_le (ut_seq users)
                        (u_id <$> (map_to_list (ut_rows users)).*2) _)
                 (Z.le_refl _)).
Qed.

Lemma select_after_insert data users :
  is_Some (select_user_id (a_username data) (insert_or_ignore_user data users)).
Proof.
  unfold select_user_id, insert_or_ignore_user.
  destruct (ut_rows users !! a_username data) as [row|] eqn:Hrow; cbn [ut_rows].
  - rewrite Hrow. simpl. eauto.
  - rewrite lookup_insert_eq. simpl. eauto.
Qed.

(** The statement always advances the sequence, by one past the largest row
    id so far. *)
Lemma insert_or_ignore_seq data users :
  ut_seq (insert_or_ignore_user data users) = (largest_user_id users + 1)%Z.
Proof.
  unfold insert_or_ignore_user.
  by destruct (ut_rows users !! a_username data).
Qed.

Lemma insert_or_ignore_conflict data users row :
  ut_rows users !! a_username data = Some row →
  ut_rows (insert_or_ignore_user data users) = ut_rows users.
Proof. intros Hrow. unfold insert_or_ignore_user. by rewrite Hrow. Qed.

(** A second [INSERT OR IGNORE] of the same user changes no row. *)
Lemma insert_or_ignore_rows_twice data users :
  ut_rows (insert_or_ignore_user data (insert_or_ignore_user data users))
  = ut_rows (insert_or_ignore_user data users).
Proof.
  destruct (select_after_insert data users) as [id Hid].
  unfold select_user_id in Hid.
  destruct (ut_rows (insert_or_ignore_user data users) !! a_username data)
    as [row|] eqn:Hrow; [|done].
  by eapply insert_or_ignore_conflict.
Qed.

Lemma select_insert_twice data users :
  select_user_id (a_username data)
    (insert_or_ignore_user data (insert_or_ignore_user data users))
  = select_user_id (a_username data) (insert_or_ignore_user data users).
Proof. unfold select_user_id. by rewrite insert_or_ignore_rows_twice. Qed.

Lemma largest_after_insert data users :
  largest_user_id (insert_or_ignore_user data users)
  = (largest_user_id users + 1)%Z.
Proof.
  apply Z.le_antisymm.
  - unfold largest_user_id at 1. apply foldr_max_le. split.
    + rewrite insert_or_ignore_seq. lia.
    + intros y (row & -> & ([name row'] & ? & Hin)%list_elem_of_fmap)%list_elem_of_fmap.
      simplify_eq/=. apply elem_of_map_to_list in Hin.
      unfold insert_or_ignore_user in Hin.
      destruct (ut_rows users !! a_username data) as [old|] eqn:Hold;
        cbn [ut_rows] in Hin.
      * pose proof (largest_user_id_ge _ _ _ Hin). lia.
      * apply lookup_insert_Some in Hin as [[_ <-]|[_ Hin]]; [simpl; lia|].
        pose proof (largest_user_id_ge _ _ _ Hin). lia.
  - rewrite <- (insert_or_ignore_seq data users).
    apply largest_user_id_seq.
Qed.

(** ** [parse_and_insert_data] *)

(** What a call that ends normally has done. *)
Lemma parse_Inserted file db db' :
  parse_and_insert_data file db = (db', Inserted) →
  ∃ data users user_id,
    file = Some (Scraped data) ∧ db_users db = Some users ∧
    select_user_id (a_username data) (insert_or_ignore_user data users)
      = Some user_id ∧
    db' = {| db_users := Some (insert_or_ignore_user data users);
             db_posts := (λ t, list_to_map (reverse (post_rows user_id data)) ∪ t)
                           <$> db_posts db;
             db_comments := (λ t, list_to_map (reverse (comment_rows data)) ∪ t)
                              <$> db_comments db |} ∧
    (db_posts db = None → a_posts data = []) ∧
    (db_comments db = None → concat (a_comments data).*2 = []).
Proof.
  unfold parse_and_insert_data.
  destruct file as [[|data]|]; [done| |done].
  destruct (db_users db) as [users|]; [|done].
  destruct (select_user_id _ _) as [user_id|] eqn:Hsel; [|done].
  cbn [db_posts db_comments db_users].
  destruct (insert_or_replace_rows (post_rows user_id data) (db_posts db))
    as [posts|] eqn:Hposts; [|done].
  destruct (insert_or_replace_rows (comment_rows data) (db_comments db))
    as [comments|] eqn:Hcomments; [|done].
  intros ?; simplify_eq.
  apply insert_rows_result in Hposts as [-> Hp].
  apply insert_rows_result in Hcomments as [-> Hc].
  exists data, users, user_id. split_and!; try done.
  - intros Hnone. specialize (Hp Hnone). unfold post_rows in Hp.
    by apply fmap_nil_inv in Hp.
  - intros Hnone. specialize (Hc Hnone). unfold comment_rows in Hc.
    by apply fmap_nil_inv in Hc.
Qed.

(** With the three tables in place the call ends normally. *)
Lemma parse_with_tables data users posts comments :
  ∃ user_id,
    select_user_id (a_username data) (insert_or_ignore_user data users)
      = Some user_id ∧
    parse_and_insert_data (Some (Scraped data))
      {| db_users := Some users; db_posts := Some posts;
         db_comments := Some comments |}
    = ({| db_users := Some (insert_or_ignore_user data users);
          db_posts := Some (list_to_map (reverse (post_rows user_id data)) ∪ posts);
          db_comments :=
            Some (list_to_map (reverse (comment_rows data)) ∪ comments) |},
       Inserted).
Proof.
  destruct (select_after_insert data users) as [user_id Hsel].
  exists user_id. split; [done|].
  unfold parse_and_insert_data. cbn [db_users db_posts db_comments].
  by rewrite Hsel, !insert_rows_Some.
Qed.

Lemma post_rows_keys user_id data :
  (post_rows user_id data).*1 = pd_id ∘ sp_post <$> a_posts data.
Proof. unfold post_rows. rewrite <- list_fmap_compose. by apply list_fmap_ext. Qed.

Lemma comment_rows_keys data :
  (comment_rows data).*1 = cd_id <$> concat (a_comments data).*2.
Proof. unfold comment_rows. rewrite <- list_fmap_compose. by apply list_fmap_ext. Qed.

(** X7. On any database, once [create_database_and_tables] has run, the
    import of a scraped result ends normally: no table is missing and the
    look-up of the user id never comes back empty. *)
Theorem import_after_create data db :
  ∃ db', parse_and_insert_data (Some (Scraped data))
           (create_database_and_tables db) = (db', Inserted).
Proof.
  unfold create_database_and_tables.
  destruct (parse_with_tables data
              (default {| ut_rows := ∅; ut_seq := 0 |} (db_users db))
              (default ∅ (db_posts db)) (default ∅ (db_comments db)))
    as (user_id & _ & ->).
  eauto.
Qed.

(** X8. Importing the same file again changes no row: a second call on the
    state a normally ended call has left ends normally, with the rows of
    [users], of [posts] and of [comments] as they were.  The one thing that
    changes is the row id sequence of [users], which the ignored insert
    advances by one. *)
Theorem import_twice file db db' :
  parse_and_insert_data file db = (db', Inserted) →
  ∃ db'' users' users'',
    parse_and_insert_data file db' = (db'', Inserted) ∧
    db_posts db'' = db_posts db' ∧
    db_comments db'' = db_comments db' ∧
    db_users db' = Some users' ∧
    db_users db'' = Some users'' ∧
    ut_rows users'' = ut_rows users' ∧
    ut_seq users'' = (ut_seq users' + 1)%Z.
Proof.
  intros (data & users & user_id & -> & Husers & Hsel & -> & Hp & Hc)%parse_Inserted.
  exists {| db_users :=
              Some (insert_or_ignore_user data (insert_or_ignore_user data users));
            db_posts := (λ t, list_to_map (reverse (post_rows user_id data)) ∪ t)
                          <$> db_posts db;
            db_comments := (λ t, list_to_map (reverse (comment_rows data)) ∪ t)
                             <$> db_comments db |},
    (insert_or_ignore_user data users),
    (insert_or_ignore_user data (insert_or_ignore_user data users)).
  split_and!; [|done..|apply insert_or_ignore_rows_twice|].
  - unfold parse_and_insert_data. cbn [db_users db_posts db_comments].
    rewrite select_insert_twice, Hsel.
    destruct (db_posts db) as [posts|]; destruct (db_comments db) as [comments|];
      cbn [fmap option_fmap option_map].
    + by rewrite !insert_rows_Some, !rows_twice.
    + assert (comment_rows data = []) as -> by (unfold comment_rows; by rewrite Hc).
      by rewrite insert_rows_Some, rows_twice.
    + assert (post_rows user_id data = []) as -> by (unfold post_rows; by rewrite Hp).
      by rewrite insert_rows_Some, rows_twice.
    + assert (comment_rows data = []) as -> by (unfold comment_rows; by rewrite Hc).
      assert (post_rows user_id data = []) as -> by (unfold post_rows; by rewrite Hp).
      done.
  - by rewrite !insert_or_ignore_seq, largest_after_insert.
Qed.

Lemma import_twice_witness :
  parse_and_insert_data (Some (Scraped sample_activity))
    (create_database_and_tables no_tables) = (sample_db, Inserted) ∧
  ∃ db'' users' users'',
    parse_and_insert_data (Some (Scraped sample_activity)) sample_db
      = (db'', Inserted) ∧
    db_posts db'' = db_posts sample_db ∧
    db_comments db'' = db_comments sample_db ∧
    db_users sample_db = Some users' ∧
    db_users db'' = Some users'' ∧
    ut_rows users'' = ut_rows users' ∧
    ut_seq users'' = (ut_seq users' + 1)%Z.
Proof.
  assert (Hrun : parse_and_insert_data (Some (Scraped sample_activity))
                   (create_database_and_tables no_tables)
                 = (sample_db, Inserted)) by (vm_compute; reflexivity).
  split; [exact Hrun|].
  exact (import_twice (Some (Scraped sample_activity))
           (create_database_and_tables no_tables) sample_db Hrun).
Defined.

(** X9. A user that is already in [users] keeps its row as it is (its
    [scraped_at] and totals are not refreshed), no row of [users] changes,
    the row id sequence is one past the largest row id the table had, and
    every post of the file is stored with the id of the user's row as its
    [user_id]. *)
Theorem existing_user_kept data db db' users row :
  db_users db = Some users →
  ut_rows users !! a_username data = Some row →
  parse_and_insert_data (Some (Scraped data)) db = (db', Inserted) →
  (∃ users', db_users db' = Some users' ∧
             ut_rows users' = ut_rows users ∧
             ut_seq users' = (largest_user_id users + 1)%Z) ∧
  ∀ post, post ∈ a_posts data →
    ∃ posts prow, db_posts db' = Some posts ∧
      posts !! pd_id (sp_post post) = Some prow ∧
      pr_user_id prow = u_id row.
Proof.
  intros Husers Hrow
    (data0 & users0 & user_id & Hfile & Husers0 & Hsel & -> & Hp & _)%parse_Inserted.
  assert (data0 = data) as -> by congruence.
  assert (users0 = users) as -> by congruence.
  cbn [db_users db_posts].
  split.
  { eexists. split; [done|]. split.
    - by eapply insert_or_ignore_conflict.
    - apply insert_or_ignore_seq. }
  unfold select_user_id in Hsel.
  rewrite (insert_or_ignore_conflict _ _ _ Hrow), Hrow in Hsel.
  assert (user_id = u_id row) as -> by (simpl in Hsel; congruence).
  intros post Hpost.
  destruct (db_posts db) as [posts|];
    [|rewrite (Hp eq_refl) in Hpost; by apply elem_of_nil in Hpost].
  destruct (rows_lookup_some (post_rows (u_id row) data) posts
              (pd_id (sp_post post))) as (prow & Hin & Hlook).
  { rewrite post_rows_keys. by apply (list_elem_of_fmap_2 (pd_id ∘ sp_post)). }
  exists (list_to_map (reverse (post_rows (u_id row) data)) ∪ posts), prow.
  split_and!; [done..|].
  unfold post_rows in Hin.
  apply list_elem_of_fmap in Hin as (post' & ? & _). by simplify_eq.
Qed.

Lemma existing_user_kept_witness :
  db_users sample_db = Some sample_users ∧
  ut_rows sample_users !! a_username sample_activity = Some sample_user_row ∧
  parse_and_insert_data (Some (Scraped sample_activity)) sample_db
    = (sample_db_again, Inserted) ∧
  (∃ users', db_users sample_db_again = Some users' ∧
             ut_rows users' = ut_rows sample_users ∧
             ut_seq users' = (largest_user_id sample_users + 1)%Z) ∧
  ∀ post, post ∈ a_posts sample_activity →
    ∃ posts prow, db_posts sample_db_again = Some posts ∧
      posts !! pd_id (sp_post post) = Some prow ∧
      pr_user_id prow = u_id sample_user_row.
Proof.
  assert (Husers : db_users sample_db = Some sample_users)
    by (vm_compute; reflexivity).
  assert (Hrow : ut_rows sample_users !! a_username sample_activity
                 = Some sample_user_row) by (vm_compute; reflexivity).
  assert (Hrun : parse_and_insert_data (Some (Scraped sample_activity)) sample_db
                 = (sample_db_again, Inserted)) by (vm_compute; reflexivity).
  split; [exact Husers|]. split; [exact Hrow|]. split; [exact Hrun|].
  exact (existing_user_kept sample_activity sample_db sample_db_again
           sample_users sample_user_row Husers Hrow Hrun).
Defined.

(** X10. A user that is not yet in [users] gets a row with the subreddit,
    the time and the totals of the file and with an id larger than the id of
    every row already there; those rows stay as they are. *)
Theorem new_user_row data db db' users :
  db_users db = Some users →
  ut_rows users !! a_username data = None →
  parse_and_insert_data (Some (Scraped data)) db = (db', Inserted) →
  ∃ users' row,
    db_users db' = Some users' ∧
    ut_rows users' !! a_username data = Some row ∧
    u_subreddit row = a_subreddit data ∧
    u_scraped_at row = a_scraped_at data ∧
    u_total_posts row = a_total_posts data ∧
    u_total_user_comments row = a_total_user_comments data ∧
    ∀ name other, ut_rows users !! name = Some other →
      ut_rows users' !! name = Some other ∧ (u_id other < u_id row)%Z.
Proof.
  intros Husers Hnew
    (data0 & users0 & user_id & Hfile & Husers0 & _ & -> & _)%parse_Inserted.
  assert (data0 = data) as -> by congruence.
  assert (users0 = users) as -> by congruence.
  cbn [db_users].
  unfold insert_or_ignore_user. rewrite Hnew.
  eexists _, _. split; [done|]. cbn [ut_rows].
  rewrite lookup_insert_eq. split; [done|]. cbn.
  split_and!; [done..|].
  intros name other Hother.
  assert (name ≠ a_username data) by congruence.
  rewrite lookup_insert_ne by done. split; [done|].
  pose proof (largest_user_id_ge _ _ _ Hother). lia.
Qed.

Lemma new_user_row_witness :
  db_users sample_db = Some sample_users ∧
  ut_rows sample_users !! a_username other_activity = None ∧
  parse_and_insert_data (Some (Scraped other_activity)) sample_db
    = (sample_db2, Inserted) ∧
  ∃ users' row,
    db_users sample_db2 = Some users' ∧
    ut_rows users' !! a_username other_activity = Some row ∧
    u_subreddit row = a_subreddit other_activity ∧
    u_scraped_at row = a_scraped_at other_activity ∧
    u_total_posts row = a_total_posts other_activity ∧
    u_total_user_comments row = a_total_user_comments other_activity ∧
    ∀ name other,
      ut_rows sample_users !! name = Some other →
      ut_rows users' !! name = Some other ∧ (u_id other < u_id row)%Z.
Proof.
  assert (Husers : db_users sample_db = Some sample_users)
    by (vm_compute; reflexivity).
  assert (Hnew : ut_rows sample_users !! a_username other_activity = None)
    by (vm_compute; reflexivity).
  assert (Hrun : parse_and_insert_data (Some (Scraped other_activity)) sample_db
                 = (sample_db2, Inserted)) by (vm_compute; reflexivity).
  split; [exact Husers|]. split; [exact Hnew|]. split; [exact Hrun|].
  exact (new_user_row other_activity sample_db sample_db2 sample_users
           Husers Hnew Hrun).
Defined.

(** X11. After an import that ended normally, the rows of the file can be
    read back: when the posts of the file have pairwise different ids, each
    of them is found in [posts] under its id, and when its comments have
    pairwise different ids, each of them is found in [comments] under its
    id, with every column as in the file. *)
Theorem imported_rows_found data db db' :
  parse_and_insert_data (Some (Scraped data)) db = (db', Inserted) →
  (NoDup (pd_id ∘ sp_post <$> a_posts data) →
   ∀ post, post ∈ a_posts data →
     ∃ posts prow, db_posts db' = Some posts ∧
       posts !! pd_id (sp_post post) = Some prow ∧ pr_post prow = post) ∧
  (NoDup (cd_id <$> concat (a_comments data).*2) →
   ∀ cd, cd ∈ concat (a_comments data).*2 →
     ∃ comments, db_comments db' = Some comments ∧
       comments !! cd_id cd = Some cd).
Proof.
  intros (data0 & users & user_id & Hfile & _ & _ & -> & Hp & Hc)%parse_Inserted.
  assert (data0 = data) as -> by congruence.
  cbn [db_posts db_comments]. split.
  - intros Hnd post Hpost.
    destruct (db_posts db) as [posts|];
      [|rewrite (Hp eq_refl) in Hpost; by apply elem_of_nil in Hpost].
    eexists _, _. split; [done|]. split.
    + apply rows_lookup_NoDup; [by rewrite post_rows_keys|].
      unfold post_rows.
      by apply (list_elem_of_fmap_2
                  (λ post, (pd_id (sp_post post),
                            {| pr_user_id := user_id; pr_post := post |}))).
    + done.
  - intros Hnd cd Hcd.
    destruct (db_comments db) as [comments|];
      [|rewrite (Hc eq_refl) in Hcd; by apply elem_of_nil in Hcd].
    eexists. split; [done|].
    apply rows_lookup_NoDup; [by rewrite comment_rows_keys|].
    unfold comment_rows.
    by apply (list_elem_of_fmap_2 (λ comment, (cd_id comment, comment))).
Qed.

Lemma imported_rows_found_witness :
  parse_and_insert_data (Some (Scraped sample_activity))
    (create_database_and_tables no_tables) = (sample_db, Inserted) ∧
  NoDup (pd_id ∘ sp_post <$> a_posts sample_activity) ∧
  NoDup (cd_id <$> concat (a_comments sample_activity).*2) ∧
  (∀ post, post ∈ a_posts sample_activity →
     ∃ posts prow, db_posts sample_db = Some posts ∧
       posts !! pd_id (sp_post post) = Some prow ∧ pr_post prow = post) ∧
  (∀ cd, cd ∈ concat (a_comments sample_activity).*2 →
     ∃ comments, db_comments sample_db = Some comments ∧
       comments !! cd_id cd = Some cd).
Proof.
  assert (Hrun : parse_and_insert_data (Some (Scraped sample_activity))
                   (create_database_and_tables no_tables)
                 = (sample_db, Inserted)) by (vm_compute; reflexivity).
  assert (Hposts : NoDup (pd_id ∘ sp_post <$> a_posts sample_activity))
    by by_evaluation.
  assert (Hcomments : NoDup (cd_id <$> concat (a_comments sample_activity).*2))
    by by_evaluation.
  split; [exact Hrun|]. split; [exact Hposts|]. split; [exact Hcomments|].
  destruct (imported_rows_found sample_activity
              (create_database_and_tables no_tables) sample_db Hrun)
    as [Hp Hc].
  split; [exact (Hp Hposts) | exact (Hc Hcomments)].
Defined.

(** X12. An import never touches the rows of others: however the call ends,
    a post whose id is not among the posts of the file, a comment whose id is
    not among its comments and a user with another name are in the state it
    leaves exactly as they were. *)
Theorem other_rows_untouched data db db' outcome :
  parse_and_insert_data (Some (Scraped data)) db = (db', outcome) →
  (∀ id, id ∉ (pd_id ∘ sp_post <$> a_posts data) →
     db_posts db' ≫= (λ t, t !! id) = db_posts db ≫= (λ t, t !! id)) ∧
  (∀ id, id ∉ (cd_id <$> concat (a_comments data).*2) →
     db_comments db' ≫= (λ t, t !! id) = db_comments db ≫= (λ t, t !! id)) ∧
  (∀ name, name ≠ a_username data →
     db_users db' ≫= (λ t, ut_rows t !! name)
     = db_users db ≫= (λ t, ut_rows t !! name)).
Proof.
  unfold parse_and_insert_data.
  destruct (db_users db) as [users|] eqn:Husers;
    [|intros ?; simplify_eq; by rewrite Husers].
  assert (Hother : ∀ name, name ≠ a_username data →
            ut_rows (insert_or_ignore_user data users) !! name
            = ut_rows users !! name).
  { intros name Hne. unfold insert_or_ignore_user.
    destruct (ut_rows users !! a_username data); [done|].
    cbn [ut_rows]. by rewrite lookup_insert_ne. }
  destruct (select_user_id _ _) as [user_id|];
    [|intros ?; simplify_eq; cbn; split_and!; [done..|];
      intros name Hne; by rewrite Hother].
  cbn [db_users db_posts db_comments].
  destruct (insert_or_replace_rows (post_rows user_id data) (db_posts db))
    as [posts|] eqn:Hposts;
    [|intros ?; simplify_eq; cbn; split_and!; [done..|];
      intros name Hne; by rewrite Hother].
  apply insert_rows_result in Hposts as [-> _].
  assert (Hposts : ∀ id, id ∉ (pd_id ∘ sp_post <$> a_posts data) →
            ((λ t, list_to_map (reverse (post_rows user_id data)) ∪ t)
               <$> db_posts db) ≫= (λ t, t !! id)
            = db_posts db ≫= (λ t, t !! id)).
  { intros id Hid. destruct (db_posts db) as [t|]; [|done]. cbn.
    apply rows_lookup_other. by rewrite post_rows_keys. }
  destruct (insert_or_replace_rows (comment_rows data) (db_comments db))
    as [comments|] eqn:Hcomments;
    [|intros ?; simplify_eq; cbn; split_and!; [done..|];
      intros name Hne; by rewrite Hother].
  apply insert_rows_result in Hcomments as [-> _].
  intros ?; simplify_eq. cbn [db_users db_posts db_comments].
  split_and!; [done| |].
  - intros id Hid. destruct (db_comments db) as [t|]; [|done]. cbn.
    apply rows_lookup_other. by rewrite comment_rows_keys.
  - intros name Hne. cbn. by rewrite Hother.
Qed.

Lemma other_rows_untouched_witness :
  parse_and_insert_data (Some (Scraped other_activity)) sample_db
    = (sample_db2, Inserted) ∧
  (∀ id, id ∉ (pd_id ∘ sp_post <$> a_posts other_activity) →
     db_posts sample_db2 ≫= (λ t, t !! id)
     = db_posts sample_db ≫= (λ t, t !! id)) ∧
  (∀ id, id ∉ (cd_id <$> concat (a_comments other_activity).*2) →
     db_comments sample_db2 ≫= (λ t, t !! id)
     = db_comments sample_db ≫= (λ t, t !! id)) ∧
  (∀ name, name ≠ a_username other_activity →
     db_users sample_db2 ≫= (λ t, ut_rows t !! name)
     = db_users sample_db ≫= (λ t, ut_rows t !! name)).
Proof.
  assert (Hrun : parse_and_insert_data (Some (Scraped other_activity)) sample_db
                 = (sample_db2, Inserted)) by (vm_compute; reflexivity).
  split; [exact Hrun|].
  exact (other_rows_untouched other_activity sample_db sample_db2 Inserted Hrun).
Defined.

(** X13. Importing what [scrape_user_activity] returned leaves no dangling
    reference: every comment of the result is in [comments] under its id, its
    [post_id] is the id of a row of [posts], and the [user_id] of that row is
    the id of the row of [users] with the user name of the result. *)
Theorem import_of_scrape_is_linked iso lower now limit fuel submissions stream
    username subreddit_name result db db' cd :
  scrape_user_activity iso lower now limit fuel submissions stream
    username subreddit_name = Some (Scraped result) →
  parse_and_insert_data (Some (Scraped result)) db = (db', Inserted) →
  cd ∈ concat (a_comments result).*2 →
  ∃ comments posts users prow urow,
    db_comments db' = Some comments ∧ comments !! cd_id cd = Some cd ∧
    db_posts db' = Some posts ∧ posts !! cd_post_id cd = Some prow ∧
    db_users db' = Some users ∧ ut_rows users !! username = Some urow ∧
    pr_user_id prow = u_id urow.
Proof.
  intros Hscrape Hparse Hcd.
  pose proof (scrape_post_ids _ _ _ _ _ _ _ _ _ _ Hscrape) as Hids.
  destruct (scrape_inv _ _ _ _ _ _ _ _ _ _ Hscrape)
    as (_ & Hrun & _ & _ & _ & Hname & _).
  destruct (run_NoDup _ _ _ _ _ _ Hrun) as [_ Hnd].
  apply parse_Inserted in Hparse
    as (data0 & users & user_id & Hfile & Husers & Hsel & -> & Hp & Hc).
  assert (data0 = result) as -> by congruence.
  cbn [db_users db_posts db_comments].
  (* the comment *)
  destruct (db_comments db) as [comments|];
    [|rewrite (Hc eq_refl) in Hcd; by apply elem_of_nil in Hcd].
  (* its post *)
  assert (Hpost : cd_post_id cd ∈ (pd_id ∘ sp_post <$> a_posts result)).
  { rewrite Hids.
    apply elem_of_concat in Hcd as (l & Hcd & Hl).
    apply list_elem_of_fmap in Hl as ([key l'] & ? & Hin). simplify_eq/=.
    destruct (run_group_facts _ _ _ _ _ _ _ _ Hrun Hin) as (_ & Hkey & Hall).
    destruct (Hall cd Hcd) as [-> _]. done. }
  assert (Hsome : a_posts result ≠ []).
  { intros Hnil. rewrite Hnil in Hpost. by apply elem_of_nil in Hpost. }
  destruct (db_posts db) as [posts|]; [|by specialize (Hp eq_refl)].
  destruct (rows_lookup_some (post_rows user_id result) posts (cd_post_id cd))
    as (prow & Hin & Hlook); [by rewrite post_rows_keys|].
  unfold select_user_id in Hsel.
  destruct (ut_rows (insert_or_ignore_user result users) !! a_username result)
    as [urow|] eqn:Hurow; [|done].
  exists (list_to_map (reverse (comment_rows result)) ∪ comments),
         (list_to_map (reverse (post_rows user_id result)) ∪ posts),
         (insert_or_ignore_user result users), prow, urow.
  split_and!; try done.
  - apply rows_lookup_NoDup; [by rewrite comment_rows_keys|].
    unfold comment_rows.
    by apply (list_elem_of_fmap_2 (λ comment, (cd_id comment, comment))).
  - by rewrite <- Hname.
  - unfold post_rows in Hin.
    apply list_elem_of_fmap in Hin as (post & ? & _). simplify_eq/=. done.
Qed.

Lemma import_of_scrape_is_linked_witness :
  sample_scrape = Some (Scraped sample_activity) ∧
  parse_and_insert_data (Some (Scraped sample_activity))
    (create_database_and_tables no_tables) = (sample_db, Inserted) ∧
  mixed_N ∈ concat (a_comments sample_activity).*2 ∧
  ∃ comments posts users prow urow,
    db_comments sample_db = Some comments ∧
    comments !! cd_id mixed_N = Some mixed_N ∧
    db_posts sample_db = Some posts ∧
    posts !! cd_post_id mixed_N = Some prow ∧
    db_users sample_db = Some users ∧ ut_rows users !! "author" = Some urow ∧
    pr_user_id prow = u_id urow.
Proof.
  assert (Hscrape : sample_scrape = Some (Scraped sample_activity))
    by (vm_compute; reflexivity).
  assert (Hrun : parse_and_insert_data (Some (Scraped sample_activity))
                   (create_database_and_tables no_tables)
                 = (sample_db, Inserted)) by (vm_compute; reflexivity).
  assert (Hcd : mixed_N ∈ concat (a_comments sample_activity).*2)
    by by_evaluation.
  split; [exact Hscrape|]. split; [exact Hrun|]. split; [exact Hcd|].
  exact (import_of_scrape_is_linked iso0 lower0 "2026-01-01T00:00:00" 1000 11
           sample_submissions mixed "author" "hfy" sample_activity
           (create_database_and_tables no_tables) sample_db mixed_N
           Hscrape Hrun Hcd).
Defined.

(** X14. The totals agree with the tables: when the submissions have
    pairwise different ids, importing the result of a scrape into a new
    database file leaves as many rows in [posts] as [total_posts] says and as
    many rows in [comments] as [total_user_comments] says, and one row in
    [users], which holds these two totals. *)
Theorem import_of_scrape_counts iso lower now limit fuel submissions stream
    username subreddit_name result :
  NoDup (s_id <$> submissions) →
  scrape_user_activity iso lower now limit fuel submissions stream
    username subreddit_name = Some (Scraped result) →
  ∃ users posts comments urow,
    parse_and_insert_data (Some (Scraped result))
      (create_database_and_tables no_tables)
    = ({| db_users := Some users; db_posts := Some posts;
          db_comments := Some comments |}, Inserted) ∧
    Z.of_nat (size posts) = a_total_posts result ∧
    Z.of_nat (size comments) = a_total_user_comments result ∧
    ut_rows users = {[ username := urow ]} ∧
    u_total_posts urow = a_total_posts result ∧
    u_total_user_comments urow = a_total_user_comments result.
Proof.
  intros Hsubs Hscrape.
  pose proof (scrape_post_ids _ _ _ _ _ _ _ _ _ _ Hscrape) as Hids.
  destruct (scrape_inv _ _ _ _ _ _ _ _ _ _ Hscrape)
    as (_ & Hrun & Hposts & Htotal & Hcomments & Hname & _).
  destruct (run_NoDup _ _ _ _ _ _ Hrun) as [_ Hnd].
  destruct (parse_with_tables result {| ut_rows := ∅; ut_seq := 0 |} ∅ ∅)
    as (user_id & Hsel & Hparse).
  eexists _, _, _, _. split; [exact Hparse|].
  split_and!.
  - rewrite rows_size; [|rewrite post_rows_keys, Hids; by apply posts_ids_NoDup].
    unfold post_rows. by rewrite length_fmap, Htotal, Hposts, length_fmap.
  - rewrite rows_size; [|by rewrite comment_rows_keys].
    unfold comment_rows.
    by rewrite length_fmap, Hcomments, total_user_comments_length.
  - unfold insert_or_ignore_user. cbn [ut_rows]. rewrite lookup_empty.
    cbn [ut_rows]. rewrite Hname. apply insert_empty.
  - done.
  - done.
Qed.

Lemma import_of_scrape_counts_witness :
  NoDup (s_id <$> sample_submissions) ∧
  sample_scrape = Some (Scraped sample_activity) ∧
  ∃ users posts comments urow,
    parse_and_insert_data (Some (Scraped sample_activity))
      (create_database_and_tables no_tables)
    = ({| db_users := Some users; db_posts := Some posts;
          db_comments := Some comments |}, Inserted) ∧
    Z.of_nat (size posts) = a_total_posts sample_activity ∧
    Z.of_nat (size comments) = a_total_user_comments sample_activity ∧
    ut_rows users = {[ "author" := urow ]} ∧
    u_total_posts urow = a_total_posts sample_activity ∧
    u_total_user_comments urow = a_total_user_comments sample_activity.
Proof.
  assert (Hnd : NoDup (s_id <$> sample_submissions)) by by_evaluation.
  assert (Hscrape : sample_scrape = Some (Scraped sample_activity))
    by (vm_compute; reflexivity).
  split; [exact Hnd|]. split; [exact Hscrape|].
  exact (import_of_scrape_counts iso0 lower0 "2026-01-01T00:00:00" 1000 11
           sample_submissions mixed "author" "hfy" sample_activity
           Hnd Hscrape).
Defined.

(** X15. A scrape that finds no text post cannot be imported: its result has
    no [username], so [parse_and_insert_data] raises [KeyError] on that key
    before its first statement and leaves the database as it was. *)
Theorem import_without_posts iso lower now limit fuel submissions stream
    username subreddit_name db :
  filter (text_post_in lower subreddit_name) submissions = [] →
  ∃ data,
    scrape_user_activity iso lower now limit fuel submissions stream
      username subreddit_name = Some data ∧
    parse_and_insert_data (Some data) db = (db, RaisedKeyError "username").
Proof.
  intros Hnone. exists NoPosts. split; [|done].
  unfold scrape_user_activity. by rewrite posts_are_the_text_posts_eq, Hnone.
Qed.

Lemma import_without_posts_witness :
  filter (text_post_in lower0 "hfy")
    [mk_submission "L1" "HFY" "" false; mk_submission "P9" "other" "x" true]
  = [] ∧
  ∃ data,
    scrape_user_activity iso0 lower0 "2026-01-01T00:00:00" 1000 0
      [mk_submission "L1" "HFY" "" false; mk_submission "P9" "other" "x" true]
      duplicated "author" "hfy" = Some data ∧
    parse_and_insert_data (Some data) sample_db
    = (sample_db, RaisedKeyError "username").
Proof.
  assert (Hnone : filter (text_post_in lower0 "hfy")
            [mk_submission "L1" "HFY" "" false;
             mk_submission "P9" "other" "x" true] = [])
    by (vm_compute; reflexivity).
  split; [exact Hnone|].
  exact (import_without_posts iso0 lower0 "2026-01-01T00:00:00" 1000 0
           [mk_submission "L1" "HFY" "" false;
            mk_submission "P9" "other" "x" true]
           duplicated "author" "hfy" sample_db Hnone).
Defined.

(** * Further properties: [get_user_comments_on_posts] *)

(** X16. When no comment of the stream is on a target post (in particular
    when there is no target post at all) the result is the empty mapping,
    whatever the stream holds, whatever the recursion limit and however few
    steps the run is given. *)
Theorem no_comment_on_target iso limit fuel stream post_ids :
  (∀ c, c ∈ stream → c_submission_id c ∉ post_ids) →
  get_user_comments_on_posts iso limit fuel stream post_ids = Some [].
Proof.
  intros Hnone. unfold get_user_comments_on_posts.
  rewrite <- first_pass_filter.
  replace (filter (λ c, c_submission_id c ∈ post_ids) stream) with (@nil Comment);
    [done|].
  symmetry. induction stream as [|c stream IH]; [done|].
  rewrite filter_cons, decide_False by (apply Hnone; left).
  apply IH. intros c' Hc'. apply Hnone. by right.
Qed.

Lemma no_comment_on_target_witness :
  (∀ c, c ∈ duplicated → c_submission_id c ∉ @nil string) ∧
  get_user_comments_on_posts iso0 1000 0 duplicated [] = Some [].
Proof.
  assert (Hnone : ∀ c, c ∈ duplicated → c_submission_id c ∉ @nil string)
    by (intros c _; apply not_elem_of_nil).
  split; [exact Hnone|].
  exact (no_comment_on_target iso0 1000 0 duplicated [] Hnone).
Defined.

(** X17. On a stream with unique ids that is shorter than the recursion
    limit, whenever the reconstruction returns, every top-level comment of
    the stream on a target post is in its output: the record built from the
    comment, with depth 0, is in the list of the comment's post. *)
Theorem top_level_comments_kept iso limit fuel stream post_ids out c :
  unique_ids stream → length stream < limit →
  get_user_comments_on_posts iso limit fuel stream post_ids = Some out →
  c ∈ stream → on_target post_ids c → top_level c →
  ∃ comments, (c_submission_id c, comments) ∈ out ∧
              comment_data_of iso c ∈ comments ∧
              cd_depth (comment_data_of iso c) = 0%Z.
Proof.
  intros Hu Hlimit Hrun Hc Ht Htop.
  apply run_done in Hrun as (records & Hsel & ->); [|done].
  destruct (first_pass_invariant iso post_ids stream)
    as [_ _ _ Hinv_top _ _].
  pose proof (first_pass_lookup iso post_ids stream c Hu Hc Ht) as Hcd.
  assert (Hin_top : c_id c ∈ (first_pass iso stream post_ids).2)
    by (apply Hinv_top; eauto).
  assert (Hr : retained (first_pass iso stream post_ids).1
                 (first_pass iso stream post_ids).2 limit (c_id c) = Some true).
  { unfold retained. by rewrite bool_decide_eq_true_2. }
  destruct (selected_complete _ _ _ _ _ _ _ _ Hsel
              (proj2 (index_entry _ _ _ _ _) Hcd) Hr) as (cd' & Hin & Hd).
  unfold with_depth in Hd. rewrite bool_decide_eq_true_2 in Hd by done.
  simplify_eq.
  exists (list_sort (on_post (c_submission_id c) records)).
  assert (Hpost : comment_data_of iso c ∈ on_post (c_submission_id c) records)
    by (by apply list_elem_of_filter).
  split_and!; [|by rewrite list_sort_perm|done].
  apply output_group. split; [done|].
  intros Hnil. rewrite Hnil in Hpost. by apply elem_of_nil in Hpost.
Qed.

Lemma top_level_comments_kept_witness :
  unique_ids mixed ∧ length mixed < 1000 ∧
  get_user_comments_on_posts iso0 1000 11 mixed mixed_targets = Some mixed_output ∧
  mk_comment "T2" "t3_P2" "P2" 15 ∈ mixed ∧
  on_target mixed_targets (mk_comment "T2" "t3_P2" "P2" 15) ∧
  top_level (mk_comment "T2" "t3_P2" "P2" 15) ∧
  ∃ comments, ("P2", comments) ∈ mixed_output ∧
    comment_data_of iso0 (mk_comment "T2" "t3_P2" "P2" 15) ∈ comments ∧
    cd_depth (comment_data_of iso0 (mk_comment "T2" "t3_P2" "P2" 15)) = 0%Z.
Proof.
  assert (Hu : unique_ids mixed) by by_evaluation.
  assert (Hlimit : length mixed < 1000) by by_evaluation.
  assert (Hrun : get_user_comments_on_posts iso0 1000 11 mixed mixed_targets
                 = Some mixed_output) by (vm_compute; reflexivity).
  assert (Hc : mk_comment "T2" "t3_P2" "P2" 15 ∈ mixed) by by_evaluation.
  assert (Ht : on_target mixed_targets (mk_comment "T2" "t3_P2" "P2" 15))
    by (unfold on_target; by_evaluation).
  assert (Htop : top_level (mk_comment "T2" "t3_P2" "P2" 15)) by reflexivity.
  split; [exact Hu|]. split; [exact Hlimit|].
  split; [exact Hrun|]. split; [exact Hc|]. split; [exact Ht|].
  split; [exact Htop|].
  exact (top_level_comments_kept iso0 1000 11 mixed mixed_targets mixed_output
           (mk_comment "T2" "t3_P2" "P2" 15) Hu Hlimit Hrun Hc Ht Htop).
Defined.

(** A record with a positive depth has a comment reference as its parent. *)
Lemma positive_depth_comment_ref iso stream post_ids limit fuel records cd :
  selection (first_pass iso stream post_ids).1 (first_pass iso stream post_ids).2
    limit fuel (first_pass iso stream post_ids).1 records →
  cd ∈ records → (1 ≤ cd_depth cd)%Z → comment_ref (cd_parent_id cd).
Proof.
  intros Hsel Hin Hdepth.
  destruct (selected_origin _ _ _ _ _ _ _ Hsel Hin) as (c & _ & _ & _ & _ & Hd).
  unfold with_depth in Hd. case_bool_decide.
  - simplify_eq. simpl in Hdepth. lia.
  - destruct (depth_walk _ fuel _ 0) as [d|] eqn:Hwalk; simpl in Hd; [|done].
    simplify_eq. simpl in *. unfold comment_ref.
    destruct fuel as [|fuel]; [done|]. simpl in Hwalk.
    destruct (startswith (c_parent_id c) "t1_"); [done|].
    simplify_eq. lia.
Qed.

(** X18. Depths have no gaps: on a stream with unique ids, a record at depth
    [d] in the output has, for every [k] from 0 to [d], a record at depth
    [k] in the output. *)
Theorem depths_without_gaps iso limit fuel stream post_ids out cd k :
  unique_ids stream →
  get_user_comments_on_posts iso limit fuel stream post_ids = Some out →
  in_output out cd → (0 ≤ k ≤ cd_depth cd)%Z →
  ∃ ancestor, in_output out ancestor ∧ cd_depth ancestor = k.
Proof.
  intros Hu (records & Hsel & ->)%run_selected Hin%in_output_selected Hk.
  destruct Hk as [Hk0 Hk1].
  assert (Hgap : ∀ n cd, cd ∈ records → cd_depth cd = (k + Z.of_nat n)%Z →
            ∃ ancestor, ancestor ∈ records ∧ cd_depth ancestor = k).
  { clear cd Hin Hk1. induction n as [|n IH]; intros cd Hin Hdepth.
    - exists cd. split; [done | lia].
    - destruct (selected_parent iso stream post_ids Hu limit fuel records cd
                  Hsel Hin) as (pd & Hpd & _ & Hstep).
      + apply (positive_depth_comment_ref iso stream post_ids limit fuel records);
          [done..|].
        lia.
      + apply (IH pd Hpd). lia. }
  destruct (Hgap (Z.to_nat (cd_depth cd - k)) cd Hin) as (a & Ha & Hda); [lia|].
  exists a. split; [by apply in_output_selected | done].
Qed.

Lemma depths_without_gaps_witness :
  unique_ids mixed ∧
  get_user_comments_on_posts iso0 1000 11 mixed mixed_targets = Some mixed_output ∧
  in_output mixed_output mixed_N ∧ (0 ≤ 1 ≤ cd_depth mixed_N)%Z ∧
  ∃ ancestor, in_output mixed_output ancestor ∧ cd_depth ancestor = 1%Z.
Proof.
  assert (Hu : unique_ids mixed) by by_evaluation.
  assert (Hrun : get_user_comments_on_posts iso0 1000 11 mixed mixed_targets
                 = Some mixed_output) by (vm_compute; reflexivity).
  assert (Hin : in_output mixed_output mixed_N)
    by (exists "P1", mixed_P1; split; by_evaluation).
  assert (Hk : (0 ≤ 1 ≤ cd_depth mixed_N)%Z) by (vm_compute; split; discriminate).
  split; [exact Hu|]. split; [exact Hrun|]. split; [exact Hin|].
  split; [exact Hk|].
  exact (depths_without_gaps iso0 1000 11 mixed mixed_targets mixed_output
           mixed_N 1 Hu Hrun Hin Hk).
Defined.
